(** * FoodVoice: from the assistant's answer to the visible menu

    A shallow embedding of the three places of the application that carry
    logic:

    - the route [/api/chat] (unnamed source file [part_002]): the handler
      that cleans the assistant's raw answer, decodes it as JSON and builds
      the [actions] object of its reply;
    - the page component [Home] (unnamed source file [part_001]): the effect
      that computes the visible menu items, and [executeAIActions], which
      applies an [actions] object to the category and the filters;
    - the route [/api/transcribe] ([pages/api/transcribe.ts]): the handler
      that turns the answer of the transcription service into a reply.

    The values that come out of [JSON.parse] are untyped in the source
    ([any]); they are modelled by the type [json] below, and every [if (x)]
    of the source is the truthiness test [truthy]. *)

From Stdlib Require Import ZArith String Ascii List Bool Lia.
From stdpp Require Import gmap strings list fin_maps pretty.

Set Warnings "-register-all".
Local Open Scope string_scope.
Local Open Scope Z_scope.

(** ** JavaScript strings and values *)

Module Js.

(** Strings are byte strings holding UTF-8 text, as the source files and the
    HTTP bodies do; a position in a string is a position in that text. *)

Definition code (a : ascii) : N := N_of_ascii a.

(** The class [\s] of regular expressions, which is also what [trim]
    removes: ECMAScript WhiteSpace and LineTerminator.  One-byte members:
    TAB, LF, VT, FF, CR, SPACE. *)
Definition is_ws1 (a : ascii) : bool :=
  let n := code a in
  ((9 <=? n) && (n <=? 13) || (n =? 32))%N.

(** U+00A0. *)
Definition is_ws2 (a b : ascii) : bool :=
  ((code a =? 194) && (code b =? 160))%N.

(** U+1680, U+2000..U+200A, U+2028, U+2029, U+202F, U+205F, U+3000,
    U+FEFF. *)
Definition is_ws3 (a b c : ascii) : bool :=
  let x := code a in
  let y := code b in
  let z := code c in
  ((x =? 225) && (y =? 154) && (z =? 128)
   || (x =? 226) && (y =? 128)
      && ((128 <=? z) && (z <=? 138) || (z =? 168) || (z =? 169) || (z =? 175))
   || (x =? 226) && (y =? 129) && (z =? 159)
   || (x =? 227) && (y =? 128) && (z =? 128)
   || (x =? 239) && (y =? 187) && (z =? 191))%N.

(** Removes the whitespace characters at the head of [s].  With
    [back = true] the string is read from its end (it is given reversed), so
    the bytes of a character come in the opposite order. *)
Fixpoint strip_ws (back : bool) (s : string) : string :=
  match s with
  | String a r =>
      if is_ws1 a then strip_ws back r
      else
        match r with
        | String b r2 =>
            if (if back then is_ws2 b a else is_ws2 a b) then strip_ws back r2
            else
              match r2 with
              | String c r3 =>
                  if (if back then is_ws3 c b a else is_ws3 a b c)
                  then strip_ws back r3
                  else s
              | EmptyString => s
              end
        | EmptyString => s
        end
  | EmptyString => s
  end.

(** [String.prototype.trimStart], [trimEnd] and [trim]. *)
Definition trimStart (s : string) : string := strip_ws false s.

Definition trimEnd (s : string) : string :=
  String.rev (strip_ws true (String.rev s)).

Definition trim (s : string) : string := trimEnd (trimStart s).

(** [s.startsWith(p)], returning what follows the prefix. *)
Fixpoint strip_prefix (p s : string) : option string :=
  match p with
  | EmptyString => Some s
  | String a p' =>
      match s with
      | String b s' => if Ascii.eqb a b then strip_prefix p' s' else None
      | EmptyString => None
      end
  end.

(** [s.endsWith(p)], returning what precedes the suffix. *)
Definition strip_suffix (p s : string) : option string :=
  match strip_prefix (String.rev p) (String.rev s) with
  | Some r => Some (String.rev r)
  | None => None
  end.

(** [s.indexOf(c)] for a single character: the position of its first
    occurrence, [-1] when there is none. *)
Fixpoint indexOf_from (c : ascii) (s : string) (i : Z) : Z :=
  match s with
  | EmptyString => -1
  | String a r => if Ascii.eqb a c then i else indexOf_from c r (i + 1)
  end.

Definition indexOf (c : ascii) (s : string) : Z := indexOf_from c s 0.

(** [s.lastIndexOf(c)]: the position of the last occurrence, [-1] when there
    is none. *)
Fixpoint lastIndexOf_from (c : ascii) (s : string) (i : Z) (found : Z) : Z :=
  match s with
  | EmptyString => found
  | String a r =>
      lastIndexOf_from c r (i + 1) (if Ascii.eqb a c then i else found)
  end.

Definition lastIndexOf (c : ascii) (s : string) : Z :=
  lastIndexOf_from c s 0 (-1).

(** [s.substring(a, b)]: both bounds are clamped to [0 .. length] and
    swapped when [a > b]. *)
Definition substring (s : string) (a b : Z) : string :=
  let len := Z.of_nat (String.length s) in
  let a' := Z.max 0 (Z.min a len) in
  let b' := Z.max 0 (Z.min b len) in
  let lo := Z.min a' b' in
  let hi := Z.max a' b' in
  String.substring (Z.to_nat lo) (Z.to_nat (hi - lo)) s.

(** [s.includes(p)]. *)
Fixpoint includes (p s : string) : bool :=
  match strip_prefix p s with
  | Some _ => true
  | None =>
      match s with
      | EmptyString => false
      | String _ r => includes p r
      end
  end.

(** [s.split(c)[0]]: the text before the first [c], all of [s] when [c]
    does not occur. *)
Fixpoint split_head (c : ascii) (s : string) : string :=
  match s with
  | EmptyString => EmptyString
  | String a r => if Ascii.eqb a c then EmptyString else String a (split_head c r)
  end.

(** [c] occurs in [s]. *)
Definition occurs (c : ascii) (s : string) : Prop :=
  In c (list_ascii_of_string s).

(** [s] is made of whitespace characters only, read from its start
    ([back = false]) or, reversed, from its end. *)
Inductive blank_dir (back : bool) : string -> Prop :=
  | blank_nil : blank_dir back EmptyString
  | blank_1 a s :
      is_ws1 a = true -> blank_dir back s -> blank_dir back (String a s)
  | blank_2 a b s :
      (if back then is_ws2 b a else is_ws2 a b) = true ->
      blank_dir back s -> blank_dir back (String a (String b s))
  | blank_3 a b c s :
      (if back then is_ws3 c b a else is_ws3 a b c) = true ->
      blank_dir back s -> blank_dir back (String a (String b (String c s))).

(** An empty or whitespace-only text. *)
Definition blank (s : string) : Prop := blank_dir false s.

(** *** Characters

    A JavaScript string is a sequence of UTF-16 code units; the text is kept
    here in UTF-8 (a lone surrogate in the three-byte form). *)

Definition byte (z : Z) : ascii := ascii_of_N (Z.to_N z).

(** The bytes of a code point, or of a lone code unit. *)
Definition utf8 (cp : Z) : list ascii :=
  if cp <? 0x80 then [byte cp]
  else if cp <? 0x800 then [byte (0xC0 + cp / 64); byte (0x80 + cp mod 64)]
  else if cp <? 0x10000 then
    [byte (0xE0 + cp / 4096); byte (0x80 + (cp / 64) mod 64);
     byte (0x80 + cp mod 64)]
  else
    [byte (0xF0 + cp / 262144); byte (0x80 + (cp / 4096) mod 64);
     byte (0x80 + (cp / 64) mod 64); byte (0x80 + cp mod 64)].

Definition is_high (u : Z) : bool := (0xD800 <=? u) && (u <=? 0xDBFF).
Definition is_low (u : Z) : bool := (0xDC00 <=? u) && (u <=? 0xDFFF).

Definition continues (a : ascii) : bool :=
  ((128 <=? code a) && (code a <=? 191))%N.

(** The code units of a string, each as a string of its own: what [s[i]]
    gives for every index.  A character outside the basic plane is two code
    units. *)
Fixpoint code_units (s : string) : list string :=
  match s with
  | EmptyString => []
  | String a r =>
      let one := String a EmptyString :: code_units r in
      let n := code a in
      if (n <? 194)%N then one
      else
        match r with
        | String b r2 =>
            if negb (continues b) then one
            else if (n <? 224)%N then
              String a (String b EmptyString) :: code_units r2
            else
              match r2 with
              | String c r3 =>
                  if negb (continues c) then one
                  else if (n <? 240)%N then
                    String a (String b (String c EmptyString)) :: code_units r3
                  else
                    match r3 with
                    | String d r4 =>
                        if negb (continues d) || (244 <? n)%N then one
                        else
                          let z x := Z.of_N (code x) in
                          let cp :=
                            (z a mod 8) * 262144 + (z b mod 64) * 4096
                            + (z c mod 64) * 64 + z d mod 64 in
                          let hi := 0xD800 + (cp - 0x10000) / 1024 in
                          let lo := 0xDC00 + (cp - 0x10000) mod 1024 in
                          string_of_list_ascii (utf8 hi)
                          :: string_of_list_ascii (utf8 lo)
                          :: code_units r4
                    | EmptyString => one
                    end
              | EmptyString => one
              end
        | EmptyString => one
        end
  end.

(** *** Numbers

    A number is a double.  It is written as a decimal [m * 10 ^ e] and
    stands for the double nearest to that decimal, ties to even, which is
    how a number literal is read: [0] for a decimal that is too small,
    [Infinity] for one beyond the range. *)

(** The quotient [a / b] to the nearest integer, ties to even ([b > 0]). *)
Definition round_even (a b : Z) : Z :=
  let n := a / b in
  let r := a mod b in
  if 2 * r <? b then n
  else if b <? 2 * r then n + 1
  else if Z.even n then n else n + 1.

(** The largest [d] with [2 ^ d <= p / q], for positive [p] and [q]. *)
Definition floor_log2 (p q : Z) : Z :=
  let d := Z.log2 p - Z.log2 q in
  if p * 2 ^ Z.max 0 (- d) <? q * 2 ^ Z.max 0 d then d - 1 else d.

(** The magnitude of the double nearest to [m * 10 ^ e], as
    [mant * 2 ^ u]: 53 bits of precision, no exponent under -1074, the
    result written with [mant < 2 ^ 53]; its range is not looked at here. *)
Definition to_double (m e : Z) : Z * Z :=
  if m =? 0 then (0, 0)
  else
    let p := Z.abs m * 10 ^ Z.max 0 e in
    let q := 10 ^ Z.max 0 (- e) in
    let u := Z.max (floor_log2 p q - 52) (-1074) in
    let mant := round_even (p * 2 ^ Z.max 0 (- u)) (q * 2 ^ Z.max 0 u) in
    if mant =? 2 ^ 53 then (2 ^ 52, u + 1) else (mant, u).

(** The decimal is read as [0] or [-0]. *)
Definition rounds_to_zero (m e : Z) : bool := fst (to_double m e) =? 0.

(** The decimal is read as [Infinity] or [-Infinity]. *)
Definition overflows (m e : Z) : bool :=
  let '(mant, u) := to_double m e in
  2 ^ 1024 <=? mant * 2 ^ Z.max 0 u.

(** The search for the digits of the double [x], whose first digit has the
    weight [10 ^ L]: with [k] digits, the two decimals around [x], the
    nearer first (of two as near, the even one); with one digit more when
    neither is read as [x]. *)
Fixpoint shortest_from (fuel : nat) (k : Z) (x : Z * Z) (L : Z) : Z * Z :=
  let '(mant, u) := x in
  let ex := L + 1 - k in
  let a := mant * 2 ^ Z.max 0 u * 10 ^ Z.max 0 (- ex) in
  let b := 2 ^ Z.max 0 (- u) * 10 ^ Z.max 0 ex in
  let near := round_even a b in
  let other := if near =? a / b then a / b + 1 else a / b in
  let valid (s : Z) :=
    (0 <? s)
    && (let '(mant', u') := to_double s ex in (mant' =? mant) && (u' =? u)) in
  match fuel with
  | O => (near, ex)
  | S f =>
      if valid near then (near, ex)
      else if valid other then (other, ex)
      else shortest_from f (k + 1) x L
  end.

(** The decimal with the fewest digits that is read as the double [x], a
    finite one that is not zero, and among those the nearest to it: the
    digits that Number::toString prints.  Seventeen digits always do. *)
Definition shortest (x : Z * Z) : Z * Z :=
  let '(mant, u) := x in
  let scaled := mant * 2 ^ Z.max 0 u * 10 ^ 400 / 2 ^ Z.max 0 (- u) in
  let L := Z.of_nat (String.length (pretty (Z.to_N scaled))) - 1 - 400 in
  shortest_from 17 1 x L.

(** *** Values

    What [JSON.parse] returns.  A number [JNum m e] is the double that the
    decimal [m * 10 ^ e] is read as, [Infinity] included; an object is a
    finite map from property names to values. *)
Inductive json : Type :=
  | JNull
  | JBool (b : bool)
  | JNum (m e : Z)
  | JStr (s : string)
  | JArr (l : list json)
  | JObj (o : gmap string json).

(** [undefined] is the absence of a value: a missing property reads as
    [None]. *)
Abbreviation undefined := (@None json).

(** ToBoolean, the test of [if (x)], [!x] and [x || y]. *)
Definition truthy (v : json) : bool :=
  match v with
  | JNull => false
  | JBool b => b
  | JNum m e => negb (rounds_to_zero m e)
  | JStr s => negb (String.eqb s "")
  | JArr _ => true
  | JObj _ => true
  end.

Definition truthy_opt (o : option json) : bool :=
  match o with
  | Some v => truthy v
  | None => false
  end.

(** [v.k] for a value that is neither [null] nor [undefined].  The source
    only reads properties by fixed names ([actions], [category], ...), none
    of which is an index, [length] or a prototype method, so on a string, an
    array, a number or a boolean the read is [undefined]. *)
Definition prop (v : json) (k : string) : option json :=
  match v with
  | JObj o => o !! k
  | _ => None
  end.

(** The own enumerable properties that [{...v}] copies: the members of an
    object, the elements of an array under their indices, the code units of
    a string under theirs, nothing for a number or a boolean. *)
Definition own_entries (v : json) : gmap string json :=
  match v with
  | JObj o => o
  | JArr l => list_to_map (imap (fun i x => (pretty i, x)) l)
  | JStr s => list_to_map (imap (fun i c => (pretty i, JStr c)) (code_units s))
  | _ => ∅
  end.

(** [{...a, ...v}]: the properties of [v] override those of [a]. *)
Definition spread (a : gmap string json) (v : json) : gmap string json :=
  own_entries v ∪ a.

(** [Object.keys(o).length]. *)
Definition keys_length (o : gmap string json) : Z := Z.of_nat (size o).

(** The decimal [m * 10 ^ e] without the zeros that end [m]. *)
Fixpoint drop_zeros (fuel : nat) (m e : Z) : Z * Z :=
  match fuel with
  | O => (m, e)
  | S f =>
      if (m =? 0) then (0, 0)
      else if (m mod 10 =? 0) then drop_zeros f (m / 10) (e + 1)
      else (m, e)
  end.

Definition normal (m e : Z) : Z * Z :=
  drop_zeros (S (Z.to_nat (Z.log2 (Z.abs m)))) m e.

Fixpoint zeros (n : nat) : string :=
  match n with
  | O => EmptyString
  | S k => String "0" (zeros k)
  end.

(** Number::toString of the double that [m0 * 10 ^ e0] is read as. *)
Definition number_to_string (m0 e0 : Z) : string :=
  if rounds_to_zero m0 e0 then "0"
  else if overflows m0 e0 then (if m0 <? 0 then "-Infinity" else "Infinity")
  else
    let '(s, ex) := shortest (to_double m0 e0) in
    let '(m, e) := normal (if m0 <? 0 then - s else s) ex in
    let digits := pretty (Z.abs_N m) in
    let k := Z.of_nat (String.length digits) in
    let n := k + e in
    let body :=
      if (k <=? n) && (n <=? 21) then digits +:+ zeros (Z.to_nat (n - k))
      else if (0 <? n) && (n <=? 21) then
        substring digits 0 n +:+ "." +:+ substring digits n k
      else if (-6 <? n) && (n <=? 0) then
        "0." +:+ zeros (Z.to_nat (- n)) +:+ digits
      else
        let x := n - 1 in
        let ex := (if x <? 0 then "-" else "+") +:+ pretty (Z.abs_N x) in
        if k =? 1 then digits +:+ "e" +:+ ex
        else substring digits 0 1 +:+ "." +:+ substring digits 1 k +:+ "e" +:+ ex
    in
    (if m <? 0 then "-" else "") +:+ body.

(** ToString, which turns the value in [obj[v]] into a property name;
    [None] is a thrown [TypeError].  An object is turned into a string by
    its [toString]: the inherited one gives [[object Object]]; an own
    property of that name, which in a decoded value is never a function,
    leaves [valueOf], own and no function either or inherited and returning
    the object itself, and so a [TypeError].  An array joins the strings of
    its elements, empty for [null]. *)
Fixpoint ToString (v : json) : option string :=
  match v with
  | JNull => Some "null"
  | JBool true => Some "true"
  | JBool false => Some "false"
  | JNum m e => Some (number_to_string m e)
  | JStr s => Some s
  | JArr l =>
      (fix join (l : list json) : option string :=
         match l with
         | [] => Some EmptyString
         | x :: r =>
             match
               match x with JNull => Some EmptyString | _ => ToString x end
             with
             | None => None
             | Some sx =>
                 match r with
                 | [] => Some sx
                 | _ :: _ =>
                     match join r with
                     | Some sr => Some (sx +:+ "," +:+ sr)
                     | None => None
                     end
                 end
             end
         end) l
  | JObj o =>
      match o !! "toString" with
      | Some _ => None
      | None => Some "[object Object]"
      end
  end.

(** The decimal in which [JSON.parse] hands out a number: the digits that
    the double prints with; a decimal that is read as [Infinity] is kept. *)
Definition canonical (m e : Z) : Z * Z :=
  if rounds_to_zero m e then (0, 0)
  else if overflows m e then normal m e
  else
    let '(s, ex) := shortest (to_double m e) in
    normal (if m <? 0 then - s else s) ex.

(** A value after [JSON.stringify] and [JSON.parse], which is how the body
    of a reply reaches the client: [Infinity] is written as [null]; every
    other number is written with the digits it prints with and read back
    as the same double. *)
Fixpoint wire (v : json) : json :=
  match v with
  | JNum m e => if overflows m e then JNull else JNum m e
  | JArr l => JArr (map wire l)
  | JObj o => JObj (wire <$> o)
  | _ => v
  end.

(** [v === 'lit'] against a string literal. *)
Definition is_string (lit : string) (v : json) : bool :=
  match v with
  | JStr s => String.eqb s lit
  | _ => false
  end.

End Js.


(** ** [JSON.parse]

    The decoder of the platform, following the JSON grammar (ECMA-404): the
    handler below takes its decoder as a parameter, and this one instantiates
    it.  [parse s = None] stands for the [SyntaxError] that [JSON.parse]
    throws. *)

Module JSON.
Import Js.

Definition is_ws (a : ascii) : bool :=
  let n := code a in
  ((n =? 32) || (n =? 9) || (n =? 10) || (n =? 13))%N.

Fixpoint skip_ws (s : string) : string :=
  match s with
  | String a r => if is_ws a then skip_ws r else s
  | EmptyString => s
  end.

Definition digit (a : ascii) : option Z :=
  let n := code a in
  if ((48 <=? n) && (n <=? 57))%N then Some (Z.of_N n - 48) else None.

Definition hex (a : ascii) : option Z :=
  let n := code a in
  if ((48 <=? n) && (n <=? 57))%N then Some (Z.of_N n - 48)
  else if ((65 <=? n) && (n <=? 70))%N then Some (Z.of_N n - 55)
  else if ((97 <=? n) && (n <=? 102))%N then Some (Z.of_N n - 87)
  else None.

Definition hex4 (a b c d : ascii) : option Z :=
  match hex a, hex b, hex c, hex d with
  | Some x, Some y, Some z, Some w => Some (((x * 16 + y) * 16 + z) * 16 + w)
  | _, _, _, _ => None
  end.

(** The digits at the head of [s]: their value after [acc], their number
    after [cnt], and the rest. *)
Fixpoint digits (s : string) (acc cnt : Z) : Z * Z * string :=
  match s with
  | String a r =>
      match digit a with
      | Some d => digits r (acc * 10 + d) (cnt + 1)
      | None => (acc, cnt, s)
      end
  | EmptyString => (acc, cnt, s)
  end.

(** number = [-] int [frac] [exp]; the value is the double that the literal
    is read as, in the decimal of [canonical]. *)
Definition number (s : string) : option (json * string) :=
  let '(neg, s1) :=
    match s with
    | String "-" r => (true, r)
    | _ => (false, s)
    end in
  let int :=
    match s1 with
    | String "0" r => Some (0, r)
    | _ =>
        let '(v, cnt, r) := digits s1 0 0 in
        if cnt =? 0 then None else Some (v, r)
    end in
  match int with
  | None => None
  | Some (i, s2) =>
      let frac :=
        match s2 with
        | String "." r =>
            let '(v, cnt, r') := digits r i 0 in
            if cnt =? 0 then None else Some (v, - cnt, r')
        | _ => Some (i, 0, s2)
        end in
      match frac with
      | None => None
      | Some (m, e, s3) =>
          let m := if neg then - m else m in
          let finish (x : Z) (r : string) :=
            let '(m', e') := canonical m (e + x) in Some (JNum m' e', r) in
          let exponent (r : string) :=
            let '(sign, r1) :=
              match r with
              | String "+" r1 => (1, r1)
              | String "-" r1 => (-1, r1)
              | _ => (1, r)
              end in
            let '(v, cnt, r2) := digits r1 0 0 in
            if cnt =? 0 then None else finish (sign * v) r2 in
          match s3 with
          | String "e" r => exponent r
          | String "E" r => exponent r
          | _ => finish 0 s3
          end
      end
  end.

(** The characters of a string literal: bytes copied from the text, and
    UTF-16 code units written as [\uXXXX]. *)
Inductive token : Type :=
  | Raw (a : ascii)
  | Unit (u : Z).

Definition escape (a : ascii) : option ascii :=
  let n := code a in
  if (n =? 34)%N then Some a
  else if (n =? 92)%N then Some a
  else if (n =? 47)%N then Some a
  else if (n =? 98)%N then Some (ascii_of_N 8)
  else if (n =? 102)%N then Some (ascii_of_N 12)
  else if (n =? 110)%N then Some (ascii_of_N 10)
  else if (n =? 114)%N then Some (ascii_of_N 13)
  else if (n =? 116)%N then Some (ascii_of_N 9)
  else None.

(** What follows the opening quote, up to the closing one. *)
Fixpoint string_body (s : string) (acc : list token)
  : option (list token * string) :=
  match s with
  | EmptyString => None
  | String a r =>
      if (code a =? 34)%N then Some (rev acc, r)
      else if (code a =? 92)%N then
        match r with
        | String x r1 =>
            match escape x with
            | Some c => string_body r1 (Raw c :: acc)
            | None =>
                if (code x =? 117)%N then
                  match r1 with
                  | String h1 (String h2 (String h3 (String h4 r2))) =>
                      match hex4 h1 h2 h3 h4 with
                      | Some u => string_body r2 (Unit u :: acc)
                      | None => None
                      end
                  | _ => None
                  end
                else None
            end
        | EmptyString => None
        end
      else if (code a <? 32)%N then None
      else string_body r (Raw a :: acc)
  end.

(** The bytes of the string value: a surrogate pair is one character. *)
Fixpoint encode (ts : list token) : list ascii :=
  match ts with
  | [] => []
  | Raw a :: r => a :: encode r
  | Unit hi :: r =>
      match r with
      | Unit lo :: r' =>
          if is_high hi && is_low lo
          then utf8 (0x10000 + (hi - 0xD800) * 1024 + (lo - 0xDC00)) ++ encode r'
          else utf8 hi ++ encode r
      | _ => utf8 hi ++ encode r
      end
  end.

Definition string_lit (s : string) : option (string * string) :=
  match string_body s [] with
  | Some (ts, r) => Some (string_of_list_ascii (encode ts), r)
  | None => None
  end.

(** value, elements of an array after the first, members of an object.
    [fuel] bounds the depth of the calls; every second call consumes a
    character. *)
Fixpoint value (fuel : nat) (s : string) : option (json * string) :=
  match fuel with
  | O => None
  | S f =>
      let s := skip_ws s in
      match s with
      | EmptyString => None
      | String a r =>
          let n := code a in
          if (n =? 123)%N then
            let r := skip_ws r in
            match r with
            | String "}" r' => Some (JObj ∅, r')
            | _ => members f r ∅
            end
          else if (n =? 91)%N then
            let r := skip_ws r in
            match r with
            | String "]" r' => Some (JArr [], r')
            | _ => elements f r []
            end
          else if (n =? 34)%N then
            match string_lit r with
            | Some (x, r') => Some (JStr x, r')
            | None => None
            end
          else
            match strip_prefix "true" s with
            | Some r' => Some (JBool true, r')
            | None =>
                match strip_prefix "false" s with
                | Some r' => Some (JBool false, r')
                | None =>
                    match strip_prefix "null" s with
                    | Some r' => Some (JNull, r')
                    | None => number s
                    end
                end
            end
      end
  end

with elements (fuel : nat) (s : string) (acc : list json)
  : option (json * string) :=
  match fuel with
  | O => None
  | S f =>
      match value f s with
      | None => None
      | Some (v, r) =>
          match skip_ws r with
          | String "," r' => elements f r' (v :: acc)
          | String "]" r' => Some (JArr (rev (v :: acc)), r')
          | _ => None
          end
      end
  end

with members (fuel : nat) (s : string) (acc : gmap string json)
  : option (json * string) :=
  match fuel with
  | O => None
  | S f =>
      match skip_ws s with
      | String a r =>
          if (code a =? 34)%N then
            match string_lit r with
            | None => None
            | Some (k, r1) =>
                match skip_ws r1 with
                | String ":" r2 =>
                    match value f r2 with
                    | None => None
                    | Some (v, r3) =>
                        match skip_ws r3 with
                        | String "," r4 => members f r4 (<[k := v]> acc)
                        | String "}" r4 => Some (JObj (<[k := v]> acc), r4)
                        | _ => None
                        end
                    end
                | _ => None
                end
            end
          else None
      | EmptyString => None
      end
  end.

(** [JSON.parse(s)]: one value, then only whitespace. *)
Definition parse (s : string) : option json :=
  match value (2 * String.length s + 2) s with
  | Some (v, r) =>
      match skip_ws r with
      | EmptyString => Some v
      | _ => None
      end
  | None => None
  end.

End JSON.

(** Sample texts are written with an apostrophe where the text has a double
    quote. *)
Fixpoint dq (s : string) : string :=
  match s with
  | EmptyString => EmptyString
  | String a r => String (if (Js.code a =? 39)%N then ascii_of_N 34 else a) (dq r)
  end.

(** ** Replies of the API routes *)

Module Http.

(** [interface ErrorResponse], declared alike in both routes. *)
Record ErrorResponse : Type := {
  error : string;
  details : option string
}.

(** The body of a reply: the data of the route or an error. *)
Inductive Body (D : Type) : Type :=
  | Data (d : D)
  | Failure (e : ErrorResponse).

Arguments Data {D} d.
Arguments Failure {D} e.

(** [res.status(status).json(body)] *)
Record Reply (D : Type) : Type := {
  status : Z;
  body : Body D
}.

Arguments Build_Reply {D} status body.
Arguments status {D} r.
Arguments body {D} r.

(** [process.env] *)
Record Env : Type := {
  OPENAI_API_KEY : option string;
  NODE_ENV : option string
}.

(** [response.ok] of a [fetch] response. *)
Definition ok (code : Z) : bool := (200 <=? code) && (code <=? 299).

End Http.

(** ** The route [/api/chat] *)

Module Chat.
Import Js Http.

(** [interface ChatResponse]; a field that is [undefined] is left out of the
    body that [res.json] writes. *)
Record ChatResponse : Type := {
  response : option json;
  actions : option json
}.

(** [interface ChatRequest], with the method of the request. *)
Record ChatRequest : Type := {
  method : string;
  message : option string
}.

(** What the call to the completion service comes to: [fetch] rejects, or it
    answers with a status and a body; [content] is what
    [chatData.choices[0]?.message?.content] evaluates to, [inl] when reading
    the body throws. *)
Inductive ChatGPT : Type :=
  | ChatRejected (msg : string)
  | ChatAnswered (code : Z) (content : string + option string).

Definition quote : string := String (ascii_of_N 34) EmptyString.

(** [s.replace(/^p\s*/, '')] for a literal [p]. *)
Definition replace_prefix (p s : string) : string :=
  match strip_prefix p s with
  | Some r => trimStart r
  | None => s
  end.

(** [s.replace(/\s*```$/, '')]: the match starts at the first character of
    the whitespace that precedes the closing fence. *)
Definition replace_closing_fence (s : string) : string :=
  match strip_suffix "```" s with
  | Some r => trimEnd r
  | None => s
  end.

(** [s.replace(/^\s*```\s*/, '')] *)
Definition replace_opening_fence (s : string) : string :=
  match strip_prefix "```" (trimStart s) with
  | Some r => trimStart r
  | None => s
  end.

(** Lines 216 to 223: trim, then remove the usual prefixes. *)
Definition stripFences (assistantResponse : string) : string :=
  let cleanedResponse := trim assistantResponse in
  let cleanedResponse := replace_prefix "```json" cleanedResponse in
  let cleanedResponse := replace_closing_fence cleanedResponse in
  let cleanedResponse := replace_prefix "json" cleanedResponse in
  let cleanedResponse := replace_prefix (quote +:+ "json") cleanedResponse in
  replace_opening_fence cleanedResponse.

(** Lines 226 to 231: from the first opening brace to the last closing one. *)
Definition braceSpan (cleanedResponse : string) : string :=
  let firstBrace := indexOf "{" cleanedResponse in
  let lastBrace := lastIndexOf "}" cleanedResponse in
  if negb (firstBrace =? -1) && negb (lastBrace =? -1) && (firstBrace <? lastBrace)
  then substring cleanedResponse firstBrace (lastBrace + 1)
  else cleanedResponse.

Definition cleanResponse (assistantResponse : string) : string :=
  braceSpan (stripFences assistantResponse).

(** [if (from.k) to.k' = from.k] *)
Definition copy (from : json) (k k' : string) (to : gmap string json)
  : gmap string json :=
  match prop from k with
  | Some v => if truthy v then <[k' := v]> to else to
  | None => to
  end.

(** Lines 250 to 277: the [actions] object built from a [parsedResponse]
    that is not [null]. *)
Definition buildActions (parsedResponse : json) : gmap string json :=
  let actions : gmap string json := ∅ in
  match prop parsedResponse "actions" with
  | Some a =>
      if truthy a then
        let actions := copy a "category" "filterCategory" actions in
        let actions := copy a "filters" "setFilters" actions in
        let actions := copy a "customFilters" "customFilters" actions in
        copy a "recommendedItems" "recommendedItems" actions
      else actions
  | None => actions
  end.

(** [parsedResponse.actions.name], when [actions] and it are truthy. *)
Definition requested (parsedResponse : json) (name : string) : option json :=
  match prop parsedResponse "actions" with
  | Some a =>
      if truthy a then
        match prop a name with
        | Some x => if truthy x then Some x else None
        | None => None
        end
      else None
  | None => None
  end.

(** The message of the [TypeError] of [null.actions] (V8's wording). *)
Definition null_actions : string :=
  "Cannot read properties of null (reading 'actions')".

(** The outer [catch]. *)
Definition internalError (env : Env) (msg : string) : Reply ChatResponse :=
  {| status := 500;
     body := Failure
       {| error := "Erreur interne du serveur";
          details :=
            if bool_decide (NODE_ENV env = Some "development")
            then Some msg else Some "Erreur inattendue" |} |}.

(** The reply of the inner [catch]: the text as it came. *)
Definition fallback (assistantResponse : string) : Reply ChatResponse :=
  {| status := 200;
     body := Data {| response := Some (JStr assistantResponse);
                     actions := undefined |} |}.

(** Lines 250 to 282: the reply to a decoded answer that is not [null]. *)
Definition success (parsedResponse : json) : Reply ChatResponse :=
  let actions := buildActions parsedResponse in
  {| status := 200;
     body := Data
       {| response := prop parsedResponse "response";
          actions := if 0 <? keys_length actions
                     then Some (JObj actions) else undefined |} |}.


Section Handler.

(** The decoder; [None] is a thrown [SyntaxError]. *)
Variable JSON_parse : string -> option json.

(** Lines 212 to 282: from the assistant's text to the reply. *)
Definition respond (env : Env) (assistantResponse : string)
  : Reply ChatResponse :=
  match JSON_parse (cleanResponse assistantResponse) with
  | None => fallback assistantResponse
  | Some JNull => internalError env null_actions
  | Some parsedResponse => success parsedResponse
  end.

Definition handler (env : Env) (req : ChatRequest) (up : ChatGPT)
  : Reply ChatResponse :=
  if negb (String.eqb (method req) "POST") then
    {| status := 405;
       body := Failure {| error := "Méthode non autorisée"; details := None |} |}
  else
    match message req with
    | None | Some EmptyString =>
        {| status := 400;
           body := Failure {| error := "Message requis"; details := None |} |}
    | Some _ =>
        match OPENAI_API_KEY env with
        | None | Some EmptyString =>
            {| status := 500;
               body := Failure
                 {| error := "Configuration serveur manquante";
                    details := Some "Clé API OpenAI non configurée" |} |}
        | Some _ =>
            match up with
            | ChatRejected msg => internalError env msg
            | ChatAnswered code content =>
                if negb (ok code) then
                  {| status := code;
                     body := Failure
                       {| error := "Erreur du service IA";
                          details := Some ("ChatGPT: " +:+ pretty code) |} |}
                else
                  match content with
                  | inl msg => internalError env msg
                  | inr None | inr (Some EmptyString) =>
                      {| status := 500;
                         body := Failure
                           {| error := "Réponse IA vide";
                              details :=
                                Some "Aucune réponse générée par l'assistant" |} |}
                  | inr (Some assistantResponse) => respond env assistantResponse
                  end
            end
        end
    end.

End Handler.

End Chat.

(** ** The [Home] component *)

Module Home.
Import Js.

(** [interface MenuItem]; [price] is the decimal [fst * 10 ^ snd]. *)
Record MenuItem : Type := {
  id : Z;
  name : string;
  price : Z * Z;
  image : string;
  description : string;
  ingredients : list string;
  allergens : list string;
  tags : list string;
  vegetarian : bool;
  vegan : bool;
  halal : bool;
  popular : bool;
  spicy : bool;
  preparationTime : string;
  cheeseRemovable : option bool
}.

(** [menuData.menu]: the categories in the order in which [Object.values]
    enumerates them, each with its items. *)
Definition Menu : Type := list (string * list MenuItem).

Record Category : Type := {
  cat_name : string;
  cat_icon : string;
  cat_description : string
}.

(** [interface MenuData] *)
Record MenuData : Type := {
  restaurant : string * string * string;
  categories : list (string * Category);
  menu : Menu
}.

(** The own property [key] of the menu. *)
Fixpoint menu_own (m : Menu) (key : string) : option (list MenuItem) :=
  match m with
  | [] => None
  | (k, items) :: r => if String.eqb k key then Some items else menu_own r key
  end.

(** The names that every object inherits from [Object.prototype]. *)
Definition Object_prototype : list string :=
  ["constructor"; "__defineGetter__"; "__defineSetter__"; "hasOwnProperty";
   "__lookupGetter__"; "__lookupSetter__"; "isPrototypeOf";
   "propertyIsEnumerable"; "toString"; "valueOf"; "__proto__";
   "toLocaleString"].

(** [menu[key]]: the items of an own property, [undefined] for a name the
    object does not have, and for an inherited name a method or the
    prototype itself, which is truthy and is not an array. *)
Inductive Lookup : Type :=
  | Own (items : list MenuItem)
  | Inherited
  | Missing.

Definition menu_get (m : Menu) (key : string) : Lookup :=
  match menu_own m key with
  | Some items => Own items
  | None =>
      if existsb (String.eqb key) Object_prototype then Inherited else Missing
  end.

(** [Object.values(menu).flat()] *)
Definition all_items (m : Menu) : list MenuItem := concat (map snd m).

(** [allergens.includes(tag)] *)
Definition has_allergen (tag : string) (item : MenuItem) : bool :=
  existsb (String.eqb tag) (allergens item).

(** The test of the filter "sans fromage":
    [!item.allergens.includes('lait') || item.cheeseRemovable === true]. *)
Definition withoutCheese (item : MenuItem) : bool :=
  negb (has_allergen "lait" item)
  || match cheeseRemovable item with Some true => true | _ => false end.

(** How the body of the filter effect ends: [setFilteredItems] receives a
    list of items; or it receives an inherited member of [Object.prototype];
    or a [TypeError] is thrown, [items.filter] being no function or the
    category no property name. *)
Inductive Outcome : Type :=
  | Shown (items : list MenuItem)
  | NotAList
  | TypeError.

(** [if (activeFilters.k) items = items.filter(test)] *)
Definition apply (activeFilters : gmap string json) (k : string)
    (test : MenuItem -> bool) (items : Outcome) : Outcome :=
  if truthy_opt (activeFilters !! k) then
    match items with
    | Shown l => Shown (List.filter test l)
    | NotAList | TypeError => TypeError
    end
  else items.

(** The body of the effect that filters the items (lines 83 to 122), as a
    function of the menu, the category and the filters. *)
Definition visibleItems (m : Menu) (currentCategory : json)
    (activeFilters : gmap string json) : Outcome :=
  let items :=
    if is_string "all" currentCategory then Shown (all_items m)
    else
      match ToString currentCategory with
      | Some key =>
          match menu_get m key with
          | Own l => Shown l
          | Missing => Shown []
          | Inherited => NotAList
          end
      | None => TypeError
      end in
  let items := apply activeFilters "vegetarian" vegetarian items in
  let items := apply activeFilters "vegan" vegan items in
  let items := apply activeFilters "halal" halal items in
  let items := apply activeFilters "popular" popular items in
  let items :=
    apply activeFilters "noAllergens"
      (fun item => (length (allergens item) =? 0)%nat) items in
  apply activeFilters "noCheese" withoutCheese items.

(** What [console.log] receives in [executeAIActions]. *)
Inductive Log : Type :=
  | ActionsReceived (actions : json)
  | CategoryChange (filterCategory : json)
  | FiltersApplied (setFilters : json)
  | CustomFilters (customFilters : json)
  | RecommendedItems (recommendedItems : json)
  | ShowItems (showItems : json).

(** The state of the component that the assistant's actions touch. *)
Record Session : Type := {
  currentCategory : json;
  activeFilters : gmap string json;
  console : list Log
}.

(** The object literal that resets the filters. *)
Definition noFilters : gmap string json :=
  list_to_map
    [("vegetarian", JBool false); ("vegan", JBool false);
     ("halal", JBool false); ("noAllergens", JBool false);
     ("popular", JBool false); ("noCheese", JBool false)].

(** The names of the filters. *)
Definition filterKeys : list string :=
  ["vegetarian"; "vegan"; "halal"; "noAllergens"; "popular"; "noCheese"].

Definition initial : Session :=
  {| currentCategory := JStr "all";
     activeFilters := noFilters;
     console := [] |}.

Definition setCurrentCategory (c : json) (s : Session) : Session :=
  {| currentCategory := c;
     activeFilters := activeFilters s;
     console := console s |}.

(** [setActiveFilters(prev => f(prev))]; a plain value is a constant [f]. *)
Definition setActiveFilters (f : gmap string json -> gmap string json)
    (s : Session) : Session :=
  {| currentCategory := currentCategory s;
     activeFilters := f (activeFilters s);
     console := console s |}.

Definition console_log (l : Log) (s : Session) : Session :=
  {| currentCategory := currentCategory s;
     activeFilters := activeFilters s;
     console := console s ++ [l] |}.

(** The filter effect: what it hands to [setFilteredItems], nothing while
    the menu is not loaded. *)
Definition filterEffect (menuData : option MenuData) (s : Session)
  : option Outcome :=
  match menuData with
  | None => None
  | Some d => Some (visibleItems (menu d) (currentCategory s) (activeFilters s))
  end.

(** [toggleFilter] *)
Definition toggleFilter (filterKey : string) (s : Session) : Session :=
  setActiveFilters
    (fun prev =>
       <[filterKey := JBool (negb (truthy_opt (prev !! filterKey)))]> prev) s.

(** A callback handed to [setTimeout]. *)
Record Timeout : Type := {
  delay : Z;
  callback : Session -> Session
}.

(** [if (v) then_(v)] on a property that may be missing. *)
Definition when (v : option json) (then_ : json -> Session -> Session)
    (s : Session) : Session :=
  match v with
  | Some x => if truthy x then then_ x s else s
  | None => s
  end.

(** [executeAIActions(actions)], for [actions] that is not [null]: the state
    after the call and the timeouts it has set. *)
Definition executeAIActions (actions : json) (s : Session)
  : Session * list Timeout :=
  let s := console_log (ActionsReceived actions) s in
  (* PRIORITÉ 1 *)
  let s :=
    when (prop actions "filterCategory")
      (fun c s => setCurrentCategory c (console_log (CategoryChange c) s)) s in
  (* PRIORITÉ 2 *)
  let s :=
    when (prop actions "setFilters")
      (fun f s =>
         setActiveFilters (fun _ => noFilters)
           (console_log (FiltersApplied f) s)) s in
  let timeouts :=
    match prop actions "setFilters" with
    | Some f =>
        if truthy f then
          [ {| delay := 100;
               callback := setActiveFilters (fun prev => spread prev f) |} ]
        else []
    | None => []
    end in
  (* PRIORITÉ 3 *)
  let s :=
    when (prop actions "customFilters")
      (fun cf s =>
         let s := console_log (CustomFilters cf) s in
         when (prop cf "withCheese")
           (fun _ s =>
              setCurrentCategory (JStr "all")
                (setActiveFilters (fun _ => noFilters) s)) s) s in
  (* PRIORITÉ 4 *)
  let s :=
    when (prop actions "recommendedItems")
      (fun r s => console_log (RecommendedItems r) s) s in
  let s :=
    when (prop actions "showItems")
      (fun r s => console_log (ShowItems r) s) s in
  (s, timeouts).

(** The timeouts fire, in the order in which they were set. *)
Definition fire (timeouts : list Timeout) (s : Session) : Session :=
  fold_left (fun st t => callback t st) timeouts s.

(** One assistant turn carried through: [executeAIActions], then its
    timeouts, with no other event in between. *)
Definition reconcile (actions : json) (s : Session) : Session :=
  let '(s', timeouts) := executeAIActions actions s in
  fire timeouts s'.

(** [if (data.actions) executeAIActions(data.actions)], on the body of a
    reply of [/api/chat]. *)
Definition applyReply (d : Chat.ChatResponse) (s : Session) : Session :=
  match Chat.actions d with
  | Some a => if truthy a then reconcile a s else s
  | None => s
  end.

(** [actions.customFilters.withCheese] is asserted. *)
Definition asserts_withCheese (actions : json) : bool :=
  match prop actions "customFilters" with
  | Some cf => truthy cf && truthy_opt (prop cf "withCheese")
  | None => false
  end.

(** The same actions with no [customFilters] property. *)
Definition without_customFilters (actions : json) : json :=
  match actions with
  | JObj o => JObj (delete "customFilters" o)
  | v => v
  end.

End Home.

(** ** The route [/api/transcribe] *)

Module Transcribe.
Import Js Http.

(** [interface TranscribeResponse]; [confidence] is a number, written as
    the decimal [m * 10 ^ e] that is read as it. *)
Record TranscribeResponse : Type := {
  text : string;
  language : option string;
  confidence : option (Z * Z)
}.

(** The body of an answer of the transcription service
    ([interface WhisperResponse]); a field may be missing. *)
Record WhisperResponse : Type := {
  w_text : option string;
  w_language : option string;
  w_confidence : option (Z * Z)
}.

(** The request: its method, its [accept-language] header, and what
    [form.parse] gives for [files.audio]; [inl m] is a rejection whose error
    has the message [m]. *)
Record TranscribeRequest : Type := {
  method : string;
  accept_language : option string;
  audio : option string + option string
}.

(** What the call to the transcription service comes to: [fetch] rejects, or
    it answers with a status, the text of its body, and the body read as
    JSON ([inl] when that throws). *)
Inductive Whisper : Type :=
  | WhisperRejected (msg : option string)
  | WhisperAnswered (code : Z) (errorText : string)
      (transcription : option string + WhisperResponse).

(** [req.headers['accept-language']?.split(',')[0]?.split('-')[0]] *)
Definition browserLang (req : TranscribeRequest) : option string :=
  match accept_language req with
  | Some h => Some (split_head "-" (split_head "," h))
  | None => None
  end.

Definition failure (code : Z) (e : string) (d : string)
  : Reply TranscribeResponse :=
  {| status := code; body := Failure {| error := e; details := Some d |} |}.

(** The [catch] of the handler, on an error whose message is [msg]. *)
Definition caught (env : Env) (msg : option string)
  : Reply TranscribeResponse :=
  let has (p : string) :=
    match msg with
    | Some m => includes p m
    | None => false
    end in
  if has "ENOENT" then
    failure 500 "Erreur de fichier temporaire"
      "Impossible de traiter le fichier audio"
  else if has "fetch" then
    failure 503 "Service temporairement indisponible"
      "Impossible de contacter l'API de transcription"
  else
    failure 500 "Erreur interne du serveur"
      (if bool_decide (NODE_ENV env = Some "development") then
         match msg with
         | None | Some EmptyString => "Erreur inattendue"
         | Some m => m
         end
       else "Erreur inattendue").

(** The reply to a transcription without speech. *)
Definition noSpeech : Reply TranscribeResponse :=
  failure 400 "Aucun texte détecté"
    "L'audio ne contient pas de parole identifiable".

(** Lines 112 to 139: from the answer of the service to the reply. *)
Definition transcribed (req : TranscribeRequest)
    (transcription : WhisperResponse) : Reply TranscribeResponse :=
  match w_text transcription with
  | None | Some EmptyString => noSpeech
  | Some t =>
      if String.eqb (trim t) "" then noSpeech
      else
        {| status := 200;
           body := Data
             {| text := trim t;
                language :=
                  match w_language transcription with
                  | None | Some EmptyString => browserLang req
                  | Some l => Some l
                  end;
                confidence :=
                  match w_confidence transcription with
                  | Some (m, e) =>
                      if rounds_to_zero m e then None else Some (m, e)
                  | None => None
                  end |} |}
  end.

Definition handler (env : Env) (req : TranscribeRequest) (up : Whisper)
  : Reply TranscribeResponse :=
  if negb (String.eqb (method req) "POST") then
    {| status := 405;
       body := Failure {| error := "Méthode non autorisée"; details := None |} |}
  else
    match OPENAI_API_KEY env with
    | None | Some EmptyString =>
        failure 500 "Configuration serveur manquante"
          "Clé API OpenAI non configurée"
    | Some _ =>
        match audio req with
        | inl msg => caught env msg
        | inr None =>
            failure 400 "Aucun fichier audio fourni"
              (dq "Le champ 'audio' est requis")
        | inr (Some _) =>
            match up with
            | WhisperRejected msg => caught env msg
            | WhisperAnswered code errorText transcription =>
                if negb (ok code) then
                  failure code "Erreur lors de la transcription"
                    ("API Whisper: " +:+ pretty code +:+ " - " +:+ errorText)
                else
                  match transcription with
                  | inl msg => caught env msg
                  | inr t => transcribed req t
                  end
            end
        end
    end.

End Transcribe.

(** ** The voice recorder hook [useVoiceRecorder] (unnamed source file
    [part_003]) *)

Module Recorder.
Import Js Http.

(** What a [fetch] of one of the routes comes to on the client: it rejects,
    or the route replies. *)
Inductive Fetched (D : Type) : Type :=
  | Unreachable
  | Replied (r : Reply D).

Arguments Unreachable {D}.
Arguments Replied {D} r.

(** [interface VoiceRecorderState]; [audioLevel] is a decimal. *)
Record VoiceRecorderState : Type := {
  isRecording : bool;
  isProcessing : bool;
  audioLevel : Z * Z;
  error : option string;
  transcript : option string
}.

(** The state of the hook and whether [mediaRecorderRef.current] is set. *)
Record Hook : Type := {
  state : VoiceRecorderState;
  mediaRecorder : bool
}.

Definition initial : Hook :=
  {| state := {| isRecording := false; isProcessing := false;
                 audioLevel := (0, 0); error := None; transcript := None |};
     mediaRecorder := false |}.

(** [setState(prev => f(prev))] *)
Definition setState (f : VoiceRecorderState -> VoiceRecorderState) (h : Hook)
  : Hook :=
  {| state := f (state h); mediaRecorder := mediaRecorder h |}.

(** What the set-up of the recording comes to: the microphone is granted and
    the recorder starts, the analyser then measuring [level]; or
    [getUserMedia] rejects, or the set-up throws before the recorder is
    stored. *)
Inductive Microphone : Type :=
  | Granted (level : Z * Z)
  | Refused.

Definition microphone_error : string :=
  "Impossible d'accéder au microphone. Vérifiez les permissions.".

Definition transcription_error : string :=
  "Erreur lors de la transcription audio".

(** [startRecording] *)
Definition startRecording (mic : Microphone) (h : Hook) : Hook :=
  let h :=
    setState
      (fun prev =>
         {| isRecording := isRecording prev; isProcessing := isProcessing prev;
            audioLevel := audioLevel prev; error := None; transcript := None |})
      h in
  match mic with
  | Granted level =>
      let h := {| state := state h; mediaRecorder := true |} in
      let h :=
        setState
          (fun prev =>
             {| isRecording := true; isProcessing := isProcessing prev;
                audioLevel := audioLevel prev; error := error prev;
                transcript := transcript prev |}) h in
      (* analyzeAudioLevel *)
      setState
        (fun prev =>
           {| isRecording := isRecording prev;
              isProcessing := isProcessing prev;
              audioLevel := level; error := error prev;
              transcript := transcript prev |}) h
  | Refused =>
      setState
        (fun prev =>
           {| isRecording := false; isProcessing := isProcessing prev;
              audioLevel := audioLevel prev; error := Some microphone_error;
              transcript := transcript prev |}) h
  end.

(** [data.text] of the body of a reply of [/api/transcribe]. *)
Definition data_text (r : Reply Transcribe.TranscribeResponse)
  : option string :=
  match body r with
  | Data d => Some (Transcribe.text d)
  | Failure _ => None
  end.

(** [transcribeAudio], on what the [fetch] of [/api/transcribe] comes to. *)
Definition transcribeAudio (server : Fetched Transcribe.TranscribeResponse)
    (h : Hook) : Hook :=
  let failed :=
    setState
      (fun prev =>
         {| isRecording := isRecording prev; isProcessing := false;
            audioLevel := audioLevel prev;
            error := Some transcription_error;
            transcript := transcript prev |}) h in
  match server with
  | Unreachable => failed
  | Replied r =>
      if negb (ok (status r)) then failed
      else
        setState
          (fun prev =>
             {| isRecording := isRecording prev; isProcessing := false;
                audioLevel := audioLevel prev; error := error prev;
                transcript := data_text r |}) h
  end.

(** [mediaRecorder.onstop] *)
Definition onstop (server : Fetched Transcribe.TranscribeResponse) (h : Hook)
  : Hook :=
  let h :=
    setState
      (fun prev =>
         {| isRecording := false; isProcessing := true; audioLevel := (0, 0);
            error := error prev; transcript := transcript prev |}) h in
  transcribeAudio server h.

(** [stopRecording]: stopping the recorder runs [onstop]. *)
Definition stopRecording (server : Fetched Transcribe.TranscribeResponse)
    (h : Hook) : Hook :=
  if mediaRecorder h && isRecording (state h) then onstop server h else h.

(** [clearTranscript] *)
Definition clearTranscript (h : Hook) : Hook :=
  setState
    (fun prev =>
       {| isRecording := isRecording prev; isProcessing := isProcessing prev;
          audioLevel := audioLevel prev; error := None; transcript := None |})
    h.

End Recorder.

(** ** The [Home] component: the rest of the page *)

Module Page.
Import Js Http Home Recorder.

(** The conjunction of the tests of the filters that are set. *)
Definition passes (filters : gmap string json) (item : MenuItem) : bool :=
  implb (truthy_opt (filters !! "vegetarian")) (vegetarian item)
  && implb (truthy_opt (filters !! "vegan")) (vegan item)
  && implb (truthy_opt (filters !! "halal")) (halal item)
  && implb (truthy_opt (filters !! "popular")) (popular item)
  && implb (truthy_opt (filters !! "noAllergens"))
       (length (allergens item) =? 0)%nat
  && implb (truthy_opt (filters !! "noCheese")) (withoutCheese item).

(** [getActiveFiltersCount]: [Object.values(activeFilters).filter(Boolean).length] *)
Definition getActiveFiltersCount (activeFilters : gmap string json) : nat :=
  size (filter (fun kv : string * json => Is_true (truthy kv.2)) activeFilters).

(** [toggleFilter] on the filters alone. *)
Definition toggled (filterKey : string) (prev : gmap string json)
  : gmap string json :=
  <[filterKey := JBool (negb (truthy_opt (prev !! filterKey)))]> prev.

(** The button "Effacer". *)
Definition clearFilters (s : Session) : Session :=
  setActiveFilters (fun _ => noFilters) s.

(** The button "Voir tout le menu". *)
Definition showWholeMenu (s : Session) : Session :=
  setActiveFilters (fun _ => noFilters) (setCurrentCategory (JStr "all") s).

(** The own property [key] of [menuData.categories]. *)
Fixpoint category_own (cs : list (string * Category)) (key : string)
  : option Category :=
  match cs with
  | [] => None
  | (k, c) :: r => if String.eqb k key then Some c else category_own r key
  end.

(** [Object.prototype[key]?.name]: the inherited methods are functions that
    carry their name, [constructor] is [Object], and [__proto__] reads the
    prototype, which has no [name]. *)
Definition inherited_name (key : string) : option string :=
  if String.eqb key "constructor" then Some "Object"
  else if String.eqb key "__proto__" then None
  else if existsb (String.eqb key) Object_prototype then Some key
  else None.

(** [getCategoryTitle]; [None] is a [TypeError] thrown by
    [menuData.categories[currentCategory]]. *)
Definition getCategoryTitle (menuData : option MenuData)
    (currentCategory : json) : option string :=
  match menuData with
  | None => Some "Chargement..."
  | Some d =>
      if is_string "all" currentCategory then Some "Notre Menu"
      else
        match ToString currentCategory with
        | None => None
        | Some key =>
            let name :=
              match category_own (categories d) key with
              | Some c => Some (cat_name c)
              | None => inherited_name key
              end in
            match name with
            | None | Some EmptyString => Some "Menu"
            | Some n => Some n
            end
        end
  end.

(** [getBrowserLanguage], on [navigator.language]. *)
Definition getBrowserLanguage (language : string) : string :=
  let lang := split_head "-" language in
  if existsb (String.eqb lang) ["fr"; "en"; "es"; "de"; "it"] then lang
  else "fr".

Definition welcome_fr : string :=
  "Bonjour, je suis Fred votre serveur digital ! Je suis là pour vous aider, vous orienter et vous expliquer le menu. Alors dites-moi, qu'est-ce qui vous ferait plaisir aujourd'hui ?".

Definition welcome_en : string :=
  "Hello, I'm Fred your digital waiter! I'm here to help you, guide you and explain the menu. So tell me, what would you like today?".

Definition welcome_es : string :=
  "¡Hola, soy Fred tu camarero digital! Estoy aquí para ayudarte, orientarte y explicarte la carta. Entonces dime, ¿qué te gustaría hoy?".

Definition welcome_de : string :=
  "Hallo, ich bin Fred, Ihr digitaler Kellner! Ich bin hier, um Ihnen zu helfen, Sie zu führen und das Menü zu erklären. Also sagen Sie mir, was hätten Sie heute gerne?".

Definition welcome_it : string :=
  "Ciao, sono Fred il vostro cameriere digitale! Sono qui per aiutarvi, guidarvi e spiegarvi il menu. Allora ditemi, cosa vi farebbe piacere oggi?".

(** The object [messages] of [getWelcomeMessage]. *)
Definition messages : list (string * string) :=
  [("fr", welcome_fr); ("en", welcome_en); ("es", welcome_es);
   ("de", welcome_de); ("it", welcome_it)].

Fixpoint messages_own (ms : list (string * string)) (key : string)
  : option string :=
  match ms with
  | [] => None
  | (k, m) :: r => if String.eqb k key then Some m else messages_own r key
  end.

(** [getWelcomeMessage]: [messages[lang] || messages.fr], for a [lang] that
    [getBrowserLanguage] returns (none of them an inherited name). *)
Definition getWelcomeMessage (language : string) : string :=
  let lang := getBrowserLanguage language in
  match messages_own messages lang with
  | None | Some EmptyString => welcome_fr
  | Some m => m
  end.

Inductive Role : Type :=
  | user
  | assistant.

(** The state of the page that a turn of the conversation touches. *)
Record Page : Type := {
  session : Session;
  assistantMessage : option json;
  conversationHistory : list (Role * option json);
  isThinking : bool;
  showTranscript : bool
}.

Definition start : Page :=
  {| session := Home.initial;
     assistantMessage := Some (JStr "");
     conversationHistory := [];
     isThinking := false;
     showTranscript := false |}.

Definition fallbackMessage : string :=
  "Désolé, j'ai un petit problème technique. Pouvez-vous répéter votre demande ?".

(** [data.response] and [data.actions] of the body of a reply of
    [/api/chat]; the body of an error has neither. *)
Definition data_response (r : Reply Chat.ChatResponse) : option json :=
  match body r with
  | Data d => Chat.response d
  | Failure _ => None
  end.

Definition data_actions (r : Reply Chat.ChatResponse) : option json :=
  match body r with
  | Data d => Chat.actions d
  | Failure _ => None
  end.

(** [processUserInputWithAI], on what the [fetch] of [/api/chat] comes to.
    The speech synthesis is left out. *)
Definition processUserInputWithAI (userMessage : string)
    (server : Fetched Chat.ChatResponse) (p : Page) : Page :=
  let caught :=
    {| session := session p;
       assistantMessage := Some (JStr fallbackMessage);
       conversationHistory := conversationHistory p;
       isThinking := false;
       showTranscript := showTranscript p |} in
  match server with
  | Unreachable => caught
  | Replied r =>
      if negb (ok (status r)) then caught
      else
        {| session :=
             match data_actions r with
             | Some a => if truthy a then reconcile a (session p) else session p
             | None => session p
             end;
           assistantMessage := data_response r;
           conversationHistory :=
             conversationHistory p
             ++ [(user, Some (JStr userMessage)); (assistant, data_response r)];
           isThinking := false;
           showTranscript := showTranscript p |}
  end.

(** The request that [processUserInputWithAI] sends. *)
Definition chatRequest (userMessage : string) : Chat.ChatRequest :=
  {| Chat.method := "POST"; Chat.message := Some userMessage |}.

(** The effect on [voiceState.transcript]: a transcript that is set is
    shown and sent to the assistant. *)
Definition onTranscript (transcript : option string)
    (server : string -> Fetched Chat.ChatResponse) (p : Page) : Page :=
  match transcript with
  | None | Some EmptyString => p
  | Some t =>
      processUserInputWithAI t (server t)
        {| session := session p;
           assistantMessage := assistantMessage p;
           conversationHistory := conversationHistory p;
           isThinking := isThinking p;
           showTranscript := true |}
  end.

(** [handleVoiceClick]: stop a recording that runs; otherwise greet on the
    first use and start one. *)
Definition handleVoiceClick (language : string) (mic : Microphone)
    (server : Fetched Transcribe.TranscribeResponse) (p : Page) (h : Hook)
  : Page * Hook :=
  if isRecording (state h) then (p, stopRecording server h)
  else
    let p :=
      if truthy_opt (assistantMessage p) then p
      else
        {| session := session p;
           assistantMessage := Some (JStr (getWelcomeMessage language));
           conversationHistory := conversationHistory p;
           isThinking := isThinking p;
           showTranscript := showTranscript p |} in
    (p, startRecording mic h).

End Page.

(** ** Vocabulary of the statements about texts and replies *)

Module Text.
Import Js.

(** [s] holds the span from an opening brace to a closing brace around
    [mid], with no opening brace before it and no closing brace after it. *)
Definition framed (mid s : string) : Prop :=
  exists P Q,
    s = P +:+ String "{" (mid +:+ String "}" Q)
    /\ ~ occurs "{" P /\ ~ occurs "}" Q.


(** A history made of pairs: a message of the user, then one of the
    assistant. *)
Fixpoint alternates (h : list (Page.Role * option json)) : bool :=
  match h with
  | [] => true
  | (Page.user, _) :: (Page.assistant, _) :: r => alternates r
  | _ => false
  end.

(** The [fetch] gave a reply that counts as a success. *)
Definition succeeded {D : Type} (server : Recorder.Fetched D) : bool :=
  match server with
  | Recorder.Replied r => Http.ok (Http.status r)
  | Recorder.Unreachable => false
  end.

(** Assistant turns one after the other: of each, the message of the user
    and what the [fetch] of [/api/chat] comes to. *)
Definition turns (l : list (string * Recorder.Fetched Chat.ChatResponse))
    (p : Page.Page) : Page.Page :=
  fold_left (fun p t => Page.processUserInputWithAI t.1 t.2 p) l p.

(** The recorder is set whenever a recording runs. *)
Definition wired (h : Recorder.Hook) : Prop :=
  Recorder.isRecording (Recorder.state h) = true ->
  Recorder.mediaRecorder h = true.

End Text.

(** ** Sample inputs *)

Module Samples.
Import Js.

Definition env : Http.Env :=
  {| Http.OPENAI_API_KEY := Some "sk-test";
     Http.NODE_ENV := Some "production" |}.

Definition request : Chat.ChatRequest :=
  {| Chat.method := "POST"; Chat.message := Some "je voudrais une pizza" |}.

(** JSON inside a code fence. *)
Definition fenced : string :=
  "```json" +:+ String (ascii_of_N 10) (dq "{'response':'hi'}")
  +:+ String (ascii_of_N 10) "```".

(** Prose, a fence, JSON, the closing fence and more prose. *)
Definition fenced_with_prose : string :=
  "Voici : ```json" +:+ String (ascii_of_N 10) (dq "{'response':'hi'}")
  +:+ String (ascii_of_N 10) "``` Bon appetit !".

(** JSON between two pieces of prose. *)
Definition prose : string :=
  dq "Here you go: {'response':'ok','actions':{'category':'pizzas'}} Enjoy!".




(** An opening brace and no closing one. *)
Definition unbalanced : string := dq "{'response': 'oops".

(** A JSON string literal that holds an opening brace. *)
Definition brace_in_string : string := dq "'{'".

(** An object with [actions] and no [response]. *)
Definition no_response : string := dq "{'actions':{'category':'pizzas'}}".

(** An object whose [response] is a number. *)
Definition numeric_response : string := dq "{'response':42}".

(** Actions whose [category] is the empty string. *)
Definition empty_category : string :=
  dq "{'response':'ok','actions':{'category':''}}".

(** Actions with [showItems] and [recommendedItems]. *)
Definition with_showItems : string :=
  dq "{'response':'ok','actions':{'showItems':[1,2],'recommendedItems':[3]}}".

(** What the text above decodes to. *)
Definition with_showItems_decoded : json :=
  JObj (<[ "response" := JStr "ok" ]>
          {[ "actions" :=
               JObj (<[ "showItems" := JArr [JNum 1 0; JNum 2 0] ]>
                       {[ "recommendedItems" := JArr [JNum 3 0] ]}) ]}).

(** A session whose filters have [vegan] set. *)
Definition vegan_session : Home.Session :=
  Home.toggleFilter "vegan" Home.initial.

(** A session that shows the pizzas. *)
Definition pizzas_session : Home.Session :=
  Home.setCurrentCategory (JStr "pizzas") Home.initial.

(** [{setFilters: {popular: true}}] *)
Definition popular_only : json :=
  JObj {[ "setFilters" := JObj {[ "popular" := JBool true ]} ]}.

(** [{filterCategory: 'pates', setFilters: {}}] *)
Definition pates_reset : json :=
  JObj (<[ "filterCategory" := JStr "pates" ]> {[ "setFilters" := JObj ∅ ]}).

(** [{recommendedItems: [1], showItems: [2], reasoning: 'because'}] *)
Definition recommending : json :=
  JObj (<[ "recommendedItems" := JArr [JNum 1 0] ]>
          (<[ "showItems" := JArr [JNum 2 0] ]>
             {[ "reasoning" := JStr "because" ]})).

(** [{customFilters: {withCheese: true}}] *)
Definition cheese_wanted : json :=
  JObj {[ "customFilters" := JObj {[ "withCheese" := JBool true ]} ]}.

(** [{customFilters: {withMeat: true, spicy: true}}] *)
Definition meat_wanted : json :=
  JObj {[ "customFilters" :=
            JObj (<[ "withMeat" := JBool true ]> {[ "spicy" := JBool true ]}) ]}.

(** [filterCategory] is the empty string. *)
Definition category_empty : json :=
  JObj {[ "filterCategory" := JStr "" ]}.

(** [{filterCategory: 'pizzas', customFilters: {withCheese: true}}] *)
Definition pizzas_with_cheese : json :=
  JObj (<[ "filterCategory" := JStr "pizzas" ]>
          {[ "customFilters" := JObj {[ "withCheese" := JBool true ]} ]}).

(** [{filterCategory: 'sushis'}] *)
Definition sushis : json := JObj {[ "filterCategory" := JStr "sushis" ]}.

Definition item (i : Z) (n : string) (al : list string) (pop : bool)
    (removable : option bool) : Home.MenuItem :=
  {| Home.id := i; Home.name := n; Home.price := (95, -1);
     Home.image := ""; Home.description := ""; Home.ingredients := [];
     Home.allergens := al; Home.tags := [];
     Home.vegetarian := true; Home.vegan := false; Home.halal := true;
     Home.popular := pop; Home.spicy := false;
     Home.preparationTime := "15 min"; Home.cheeseRemovable := removable |}.

Definition margherita := item 1 "Margherita" ["gluten"; "lait"] true (Some true).
Definition quattro := item 2 "Quattro Formaggi" ["gluten"; "lait"] false None.
Definition carbonara := item 3 "Carbonara" ["gluten"; "lait"; "oeufs"] false (Some false).
Definition arrabbiata := item 4 "Arrabbiata" ["gluten"] false None.

Definition menu : Home.Menu :=
  [("pizzas", [margherita; quattro]); ("pates", [carbonara; arrabbiata])].

Definition upload : Transcribe.TranscribeRequest :=
  {| Transcribe.method := "POST";
     Transcribe.accept_language := Some "fr-FR,fr;q=0.9";
     Transcribe.audio := inr (Some "/tmp/upload.webm") |}.

(** An answer of the assistant that is no JSON. *)
Definition plain_answer : string := "Bonjour, que puis-je pour vous ?".

(** A request that is not a POST. *)
Definition get_request : Chat.ChatRequest :=
  {| Chat.method := "GET"; Chat.message := None |}.

Definition heard (t : string) : Transcribe.WhisperResponse :=
  {| Transcribe.w_text := Some t;
     Transcribe.w_language := Some "french";
     Transcribe.w_confidence := None |}.

End Samples.

(** * Properties *)

(** Cases on [if (a.k)]: missing, falsy, truthy. *)
Ltac split_prop a k :=
  let x := fresh "x" in
  destruct (Js.prop a k) as [x|]; simpl; [destruct (Js.truthy x); simpl|].

(** ** Strings *)

Module JsFacts.
Import Js.

Lemma occurs_cons c a s : occurs c (String a s) <-> a = c \/ occurs c s.
Proof. reflexivity. Qed.

Lemma append_cons a (s t : string) : String a s +:+ t = String a (s +:+ t).
Proof. reflexivity. Qed.

Lemma append_assoc (s t u : string) : (s +:+ t) +:+ u = s +:+ (t +:+ u).
Proof.
  induction s as [|a s IH]; [reflexivity|].
  rewrite !append_cons. now rewrite IH.
Qed.

Lemma append_empty_r (s : string) : s +:+ "" = s.
Proof.
  induction s as [|a s IH]; [reflexivity|].
  change (String a s +:+ "") with (String a (s +:+ "")). now rewrite IH.
Qed.

Lemma length_append (s t : string) :
  String.length (s +:+ t) = (String.length s + String.length t)%nat.
Proof. induction s as [|a s IH]; simpl; [reflexivity | now rewrite IH]. Qed.

Lemma indexOf_from_absent c s i : ~ occurs c s -> indexOf_from c s i = -1.
Proof.
  revert i. induction s as [|a s IH]; intros i H; simpl; [reflexivity|].
  destruct (Ascii.eqb_spec a c) as [->|Hne].
  - exfalso. apply H. now left.
  - apply IH. intros Hc. apply H. now right.
Qed.

Lemma indexOf_from_first c pre rest i :
  ~ occurs c pre ->
  indexOf_from c (pre +:+ String c rest) i = i + Z.of_nat (String.length pre).
Proof.
  revert i. induction pre as [|a pre IH]; intros i H; simpl.
  - rewrite Ascii.eqb_refl. lia.
  - destruct (Ascii.eqb_spec a c) as [->|Hne].
    + exfalso. apply H. now left.
    + rewrite IH; [lia|]. intros Hc. apply H. now right.
Qed.

Lemma lastIndexOf_from_absent c s i found :
  ~ occurs c s -> lastIndexOf_from c s i found = found.
Proof.
  revert i found. induction s as [|a s IH]; intros i found H; simpl; [reflexivity|].
  destruct (Ascii.eqb_spec a c) as [->|Hne].
  - exfalso. apply H. now left.
  - apply IH. intros Hc. apply H. now right.
Qed.

Lemma lastIndexOf_from_app c s t i found :
  lastIndexOf_from c (s +:+ t) i found =
  lastIndexOf_from c t (i + Z.of_nat (String.length s))
    (lastIndexOf_from c s i found).
Proof.
  revert i found. induction s as [|a s IH]; intros i found; simpl.
  - f_equal. lia.
  - rewrite IH. f_equal. lia.
Qed.

Lemma lastIndexOf_from_last c s post i found :
  ~ occurs c post ->
  lastIndexOf_from c (s +:+ String c post) i found =
  i + Z.of_nat (String.length s).
Proof.
  intros H. rewrite lastIndexOf_from_app. simpl.
  rewrite Ascii.eqb_refl. now apply lastIndexOf_from_absent.
Qed.

(** The last occurrence is the default or lies within the text. *)
Lemma lastIndexOf_from_range c s i found :
  lastIndexOf_from c s i found = found
  \/ i <= lastIndexOf_from c s i found < i + Z.of_nat (String.length s).
Proof.
  revert i found. induction s as [|a s IH]; intros i found; simpl; [now left|].
  destruct (IH (i + 1) (if Ascii.eqb a c then i else found)) as [E|E].
  - rewrite E. destruct (Ascii.eqb a c); [right; lia | now left].
  - right. lia.
Qed.

Lemma substring_skip (n m : nat) (s t : string) :
  String.substring (String.length s + n) m (s +:+ t) = String.substring n m t.
Proof. induction s as [|a s IH]; simpl; [reflexivity | exact IH]. Qed.

Lemma substring_prefix (s t : string) :
  String.substring 0 (String.length s) (s +:+ t) = s.
Proof.
  induction s as [|a s IH]; simpl.
  - now destruct t.
  - now rewrite IH.
Qed.

(** [substring] cuts out the middle of three pieces. *)
Lemma substring_middle (s t u : string) :
  substring (s +:+ t +:+ u)
    (Z.of_nat (String.length s))
    (Z.of_nat (String.length s) + Z.of_nat (String.length t)) = t.
Proof.
  unfold substring. rewrite !length_append.
  set (a := String.length s). set (b := String.length t).
  set (c := String.length u).
  replace (Z.to_nat _) with (a + 0)%nat by lia.
  replace (Z.to_nat _) with b by lia.
  unfold a. rewrite substring_skip. apply substring_prefix.
Qed.

End JsFacts.

(** ** The assistant's actions *)

Module HomeFacts.
Import Js Home.

Ltac split_prop a k :=
  let x := fresh "x" in
  destruct (prop a k) as [x|]; simpl; [destruct (truthy x); simpl|].

(** A step that only logs leaves the category and the filters alone. *)
Lemma when_log_category v g s :
  currentCategory (when v (fun r s => console_log (g r) s) s)
  = currentCategory s.
Proof. destruct v as [x|]; simpl; [destruct (truthy x)|]; reflexivity. Qed.

Lemma when_log_filters v g s :
  activeFilters (when v (fun r s => console_log (g r) s) s)
  = activeFilters s.
Proof. destruct v as [x|]; simpl; [destruct (truthy x)|]; reflexivity. Qed.

(** The category after [executeAIActions]. *)
Lemma executeAIActions_category actions s :
  currentCategory (fst (executeAIActions actions s)) =
  if asserts_withCheese actions then JStr "all"
  else
    match prop actions "filterCategory" with
    | Some c => if truthy c then c else currentCategory s
    | None => currentCategory s
    end.
Proof.
  unfold executeAIActions, asserts_withCheese. simpl fst.
  rewrite !when_log_category.
  split_prop actions "customFilters";
    [ destruct (prop x "withCheese") as [w|]; simpl;
      [destruct (truthy w); simpl; [reflexivity|] |] | | ];
    split_prop actions "setFilters";
    split_prop actions "filterCategory"; reflexivity.
Qed.

(** The filters after [executeAIActions], before any timeout fires. *)
Lemma executeAIActions_filters actions s :
  activeFilters (fst (executeAIActions actions s)) =
  if asserts_withCheese actions || truthy_opt (prop actions "setFilters")
  then noFilters else activeFilters s.
Proof.
  unfold executeAIActions, asserts_withCheese. simpl fst.
  rewrite !when_log_filters.
  split_prop actions "customFilters";
    [ destruct (prop x "withCheese") as [w|]; simpl;
      [destruct (truthy w); simpl; [reflexivity|] |] | | ];
    split_prop actions "setFilters";
    split_prop actions "filterCategory"; reflexivity.
Qed.

Lemma reconcile_unfold actions s :
  reconcile actions s =
  fire (snd (executeAIActions actions s)) (fst (executeAIActions actions s)).
Proof. unfold reconcile. now destruct (executeAIActions actions s). Qed.

(** The timeouts do not touch the category. *)
Lemma reconcile_category actions s :
  currentCategory (reconcile actions s) =
  if asserts_withCheese actions then JStr "all"
  else
    match prop actions "filterCategory" with
    | Some c => if truthy c then c else currentCategory s
    | None => currentCategory s
    end.
Proof.
  rewrite reconcile_unfold, <- executeAIActions_category.
  unfold executeAIActions at 1. simpl snd.
  split_prop actions "setFilters"; reflexivity.
Qed.

(** The filters once the timeout has fired. *)
Lemma reconcile_filters actions s :
  activeFilters (reconcile actions s) =
  match prop actions "setFilters" with
  | Some f =>
      if truthy f then spread noFilters f
      else if asserts_withCheese actions then noFilters else activeFilters s
  | None => if asserts_withCheese actions then noFilters else activeFilters s
  end.
Proof.
  rewrite reconcile_unfold.
  pose proof (executeAIActions_filters actions s) as E.
  unfold executeAIActions at 1. simpl snd.
  destruct (prop actions "setFilters") as [f|]; simpl in *.
  - destruct (truthy f); simpl.
    + rewrite E, orb_true_r. reflexivity.
    + rewrite E, orb_false_r. reflexivity.
  - rewrite E, orb_false_r. reflexivity.
Qed.

(** The console only grows, and [ShowItems] is logged for a truthy
    [showItems] only. *)
Lemma reconcile_console actions s l :
  In l (console (reconcile actions s)) ->
  In l (console s)
  \/ l = ActionsReceived actions
  \/ (exists c, prop actions "filterCategory" = Some c /\ l = CategoryChange c)
  \/ (exists f, prop actions "setFilters" = Some f /\ l = FiltersApplied f)
  \/ (exists f, prop actions "customFilters" = Some f /\ l = CustomFilters f)
  \/ (exists f, prop actions "recommendedItems" = Some f /\ l = RecommendedItems f)
  \/ (exists f, prop actions "showItems" = Some f /\ truthy f = true
                /\ l = ShowItems f).
Proof.
  rewrite reconcile_unfold. unfold executeAIActions. simpl fst. simpl snd.
  destruct (prop actions "filterCategory") as [c|] eqn:Ec; simpl;
    [destruct (truthy c) eqn:Tc; simpl|];
  (destruct (prop actions "setFilters") as [f|] eqn:Ef; simpl;
    [destruct (truthy f) eqn:Tf; simpl|]);
  (destruct (prop actions "customFilters") as [cf|] eqn:Ecf; simpl;
    [destruct (truthy cf) eqn:Tcf; simpl;
      [destruct (prop cf "withCheese") as [w|]; simpl;
        [destruct (truthy w); simpl|] |] |]);
  (destruct (prop actions "recommendedItems") as [r|] eqn:Er; simpl;
    [destruct (truthy r) eqn:Tr; simpl|]);
  (destruct (prop actions "showItems") as [sh|] eqn:Esh; simpl;
    [destruct (truthy sh) eqn:Tsh; simpl|]);
  rewrite ?in_app_iff; simpl; intuition (subst; eauto 10).
Qed.

(** What [without_customFilters] keeps. *)
Lemma prop_without_customFilters actions k :
  k <> "customFilters" ->
  prop (without_customFilters actions) k = prop actions k.
Proof.
  intros Hk. destruct actions; simpl; try reflexivity.
  now apply lookup_delete_ne.
Qed.

Lemma asserts_without_customFilters actions :
  asserts_withCheese (without_customFilters actions) = false.
Proof.
  unfold asserts_withCheese. destruct actions; simpl; try reflexivity.
  now rewrite lookup_delete_eq.
Qed.

(** The test of the filter "sans fromage", in words. *)
Lemma withoutCheese_spec item :
  withoutCheese item = true <->
  ~ In "lait" (allergens item) \/ cheeseRemovable item = Some true.
Proof.
  unfold withoutCheese, has_allergen. rewrite orb_true_iff, negb_true_iff.
  split.
  - intros [H|H].
    + left. intros Hin.
      assert (existsb (String.eqb "lait") (allergens item) = true) as E.
      { apply existsb_exists. exists "lait". split; [assumption|].
        apply String.eqb_refl. }
      congruence.
    + right. destruct (cheeseRemovable item) as [[|]|]; congruence.
  - intros [H|H].
    + left. destruct (existsb _ _) eqn:E; [|reflexivity].
      exfalso. apply H. apply existsb_exists in E as (x & Hx & Ex).
      apply String.eqb_eq in Ex. now subst x.
    + right. now rewrite H.
Qed.

Lemma apply_off filters k test items :
  truthy_opt (filters !! k) = false -> apply filters k test items = items.
Proof. unfold apply. now intros ->. Qed.

Lemma apply_on filters k test l :
  truthy_opt (filters !! k) = true ->
  apply filters k test (Shown l) = Shown (List.filter test l).
Proof. unfold apply. now intros ->. Qed.

Lemma apply_nil filters k test : apply filters k test (Shown []) = Shown [].
Proof. unfold apply. now destruct (truthy_opt _). Qed.

(** A name that the menu does not have and that no object inherits reads
    as [undefined]. *)
Lemma menu_get_unknown (m : Menu) key :
  ~ In key (map fst m) -> ~ In key Object_prototype ->
  menu_get m key = Missing.
Proof.
  intros Hown Hproto. unfold menu_get.
  assert (menu_own m key = None) as ->.
  { induction m as [|[k items] m IH]; simpl; [reflexivity|].
    destruct (String.eqb_spec k key) as [->|Hne].
    - exfalso. apply Hown. now left.
    - apply IH. intros Hin. apply Hown. now right. }
  destruct (existsb _ _) eqn:E; [|reflexivity].
  exfalso. apply Hproto. apply existsb_exists in E as (x & Hx & Ex).
  apply String.eqb_eq in Ex. now subst x.
Qed.

(** The filters after a turn whose actions carry filters. *)
Lemma filters_merged (actions : json) (s : Session) (f : json) :
  prop actions "setFilters" = Some f ->
  truthy f = true ->
  activeFilters (reconcile actions s) = spread noFilters f.
Proof. intros Hf Tf. rewrite reconcile_filters, Hf, Tf. reflexivity. Qed.

(** C1. When the actions carry filters (a truthy [setFilters], which every
    object is, the empty one included), the filters after the turn are the
    all-false object overlaid with the properties of [setFilters]: a key that
    [setFilters] has takes its value, and a key it does not have is as in the
    all-false object, whatever the filters were before. *)
Theorem filters_reset_then_merge (actions : json) (s : Session) (f : json) :
  prop actions "setFilters" = Some f ->
  truthy f = true ->
  activeFilters (reconcile actions s) = spread noFilters f
  /\ (forall k v, own_entries f !! k = Some v ->
        activeFilters (reconcile actions s) !! k = Some v)
  /\ (forall k, own_entries f !! k = None ->
        activeFilters (reconcile actions s) !! k = noFilters !! k)
  /\ (forall k, In k filterKeys -> own_entries f !! k = None ->
        activeFilters (reconcile actions s) !! k = Some (JBool false)).
Proof.
  intros Hf Tf.
  rewrite (filters_merged actions s f Hf Tf). unfold spread. split; [reflexivity|]. split; [|split].
  - intros k v Hk. now apply lookup_union_Some_l.
  - intros k Hk. now apply lookup_union_r.
  - intros k Hin Hk. rewrite lookup_union_r by assumption.
    simpl in Hin. intuition (subst k; reflexivity).
Qed.

(** C1, on the sample of the specification: [popular] alone is asked for
    while [vegan] was set. *)
Lemma filters_reset_then_merge_witness :
  activeFilters Samples.vegan_session !! "vegan" = Some (JBool true)
  /\ activeFilters (reconcile Samples.popular_only Samples.vegan_session)
       !! "popular" = Some (JBool true)
  /\ activeFilters (reconcile Samples.popular_only Samples.vegan_session)
       !! "vegan" = Some (JBool false).
Proof.
  destruct (filters_reset_then_merge Samples.popular_only
              Samples.vegan_session (JObj {[ "popular" := JBool true ]})
              eq_refl eq_refl) as (_ & Hin & _ & Hout).
  split; [reflexivity|]. split.
  - apply Hin. reflexivity.
  - apply Hout; [simpl; tauto | reflexivity].
Defined.

(** A category with empty filters: the category changes and every filter
    is reset. *)
Lemma category_with_empty_filters :
  currentCategory (reconcile Samples.pates_reset Samples.vegan_session)
  = JStr "pates"
  /\ activeFilters (reconcile Samples.pates_reset Samples.vegan_session)
     = noFilters.
Proof. split; vm_compute; reflexivity. Qed.

(** C3, as stated, fails: with [withCheese] asserted the filters do not keep
    their prior value. *)
Lemma withCheese_resets_filters :
  asserts_withCheese Samples.cheese_wanted = true
  /\ activeFilters Samples.vegan_session !! "vegan" = Some (JBool true)
  /\ activeFilters (reconcile Samples.cheese_wanted Samples.vegan_session)
       !! "vegan" = Some (JBool false)
  /\ activeFilters (reconcile Samples.cheese_wanted Samples.vegan_session)
     <> activeFilters Samples.vegan_session.
Proof.
  split; [reflexivity|]. split; [reflexivity|]. split; [reflexivity|].
  intros E. apply (f_equal (fun m => m !! "vegan")) in E.
  vm_compute in E. discriminate E.
Qed.

(** C3, amended. With [withCheese] asserted the category becomes "all" and
    the filters are reset to all-false (on which the filters of the same
    actions, if any, are merged); without it, the custom filters change
    neither the category nor the filters, nor then the visible items. *)
Theorem withCheese_forces_all_and_resets (actions : json) (s : Session) :
  (asserts_withCheese actions = true ->
     currentCategory (reconcile actions s) = JStr "all"
     /\ activeFilters (reconcile actions s) =
        match prop actions "setFilters" with
        | Some f => if truthy f then spread noFilters f else noFilters
        | None => noFilters
        end)
  /\ (asserts_withCheese actions = false ->
        currentCategory (reconcile actions s)
        = currentCategory (reconcile (without_customFilters actions) s)
        /\ activeFilters (reconcile actions s)
           = activeFilters (reconcile (without_customFilters actions) s)).
Proof.
  split; intros H.
  - rewrite reconcile_category, reconcile_filters, H. split; [reflexivity|].
    destruct (prop actions "setFilters") as [f|]; [destruct (truthy f)|];
      reflexivity.
  - rewrite !reconcile_category, !reconcile_filters.
    rewrite asserts_without_customFilters, H.
    rewrite !prop_without_customFilters by discriminate.
    split; reflexivity.
Qed.

Lemma withCheese_forces_all_and_resets_witness :
  (currentCategory (reconcile Samples.pizzas_with_cheese Samples.vegan_session)
   = JStr "all"
   /\ activeFilters (reconcile Samples.pizzas_with_cheese Samples.vegan_session)
      = noFilters)
  /\ (currentCategory (reconcile Samples.meat_wanted Samples.pizzas_session)
      = JStr "pizzas"
      /\ activeFilters (reconcile Samples.meat_wanted Samples.vegan_session)
         = activeFilters Samples.vegan_session).
Proof.
  split.
  - apply (proj1 (withCheese_forces_all_and_resets Samples.pizzas_with_cheese
                    Samples.vegan_session)). reflexivity.
  - split.
    + rewrite (proj1 (proj2 (withCheese_forces_all_and_resets
                 Samples.meat_wanted Samples.pizzas_session) eq_refl)).
      reflexivity.
    + rewrite (proj2 (proj2 (withCheese_forces_all_and_resets
                 Samples.meat_wanted Samples.vegan_session) eq_refl)).
      reflexivity.
Defined.

(** C6. With [noCheese] set, the visible items are those that are visible
    with [noCheese] unset and that either have no "lait" among their
    allergens or have [cheeseRemovable] true: an item with "lait" and
    [cheeseRemovable] true is kept, one with "lait" and [cheeseRemovable]
    missing or false is hidden. *)
Theorem noCheese_keeps_cheese_free_or_removable (m : Menu) (category : json)
    (filters : gmap string json) (base : list MenuItem) :
  truthy_opt (filters !! "noCheese") = true ->
  visibleItems m category (<["noCheese" := JBool false]> filters) = Shown base ->
  exists shown,
    visibleItems m category filters = Shown shown
    /\ shown = List.filter withoutCheese base
    /\ (forall item, In item shown <->
          In item base
          /\ (~ In "lait" (allergens item) \/ cheeseRemovable item = Some true))
    /\ (forall item, In item base -> In "lait" (allergens item) ->
          cheeseRemovable item = Some true -> In item shown)
    /\ (forall item, In "lait" (allergens item) ->
          cheeseRemovable item <> Some true -> ~ In item shown).
Proof.
  intros Hon Hbase. exists (List.filter withoutCheese base).
  assert (forall item, In item (List.filter withoutCheese base) <->
            In item base
            /\ (~ In "lait" (allergens item) \/ cheeseRemovable item = Some true))
    as Hchar.
  { intros item. rewrite filter_In, withoutCheese_spec. reflexivity. }
  split; [|split; [reflexivity|split; [exact Hchar|split]]].
  - revert Hbase. unfold visibleItems, apply.
    rewrite lookup_insert_eq, !lookup_insert_ne by discriminate.
    rewrite Hon. simpl truthy_opt. cbv iota. now intros ->.
  - intros item Hb _ Hr. apply Hchar. auto.
  - intros item Hl Hr Hs. apply Hchar in Hs as (_ & [H|H]); auto.
Qed.

(** C6, on the sample menu: the Margherita (cheese removable) stays, the
    Quattro Formaggi and the Carbonara go. *)
Lemma noCheese_keeps_cheese_free_or_removable_witness :
  exists shown,
    visibleItems Samples.menu (JStr "all") (<["noCheese" := JBool true]> noFilters)
    = Shown shown
    /\ shown = [Samples.margherita; Samples.arrabbiata].
Proof.
  destruct (noCheese_keeps_cheese_free_or_removable Samples.menu (JStr "all")
              (<["noCheese" := JBool true]> noFilters)
              [Samples.margherita; Samples.quattro; Samples.carbonara;
               Samples.arrabbiata])
    as (shown & E & F & _); [reflexivity | reflexivity |].
  exists shown. split; [exact E|]. rewrite F. reflexivity.
Defined.

(** C7. With the category "all" and every filter flag false, the visible
    items are the items of the categories, one category after the other in
    the order of the menu: every item once, in order.  It is what the filter
    effect hands to [setFilteredItems] once the menu is loaded. *)
Theorem unfiltered_all_is_whole_catalog (m : Menu) (filters : gmap string json) :
  (forall k, In k filterKeys -> truthy_opt (filters !! k) = false) ->
  visibleItems m (JStr "all") filters = Shown (concat (map snd m))
  /\ (forall d s,
        menu d = m -> currentCategory s = JStr "all" ->
        activeFilters s = filters ->
        filterEffect (Some d) s = Some (Shown (concat (map snd m)))).
Proof.
  intros Hoff.
  assert (visibleItems m (JStr "all") filters = Shown (concat (map snd m)))
    as E.
  { unfold visibleItems. simpl is_string. cbv iota.
    rewrite !apply_off by (apply Hoff; simpl; tauto). reflexivity. }
  split; [exact E|]. intros d s Hm Hc Hf. unfold filterEffect.
  now rewrite Hm, Hc, Hf, E.
Qed.

Lemma unfiltered_all_is_whole_catalog_witness :
  visibleItems Samples.menu (JStr "all") noFilters
  = Shown [Samples.margherita; Samples.quattro; Samples.carbonara;
           Samples.arrabbiata].
Proof.
  refine (proj1 (unfiltered_all_is_whole_catalog Samples.menu noFilters _)).
  intros k Hk. simpl in Hk.
  repeat (destruct Hk as [<-|Hk]; [reflexivity|]). destruct Hk.
Defined.

(** C8, as stated, fails: an empty category string is not taken over, at
    the reconciler and from the assistant's text alike, and a category that
    comes with [withCheese] ends as "all". *)
Lemma category_not_always_verbatim :
  (prop Samples.category_empty "filterCategory" = Some (JStr "")
   /\ currentCategory (reconcile Samples.category_empty Samples.pizzas_session)
      = JStr "pizzas")
  /\ (exists d,
        Http.body (Chat.respond JSON.parse Samples.env Samples.empty_category)
        = Http.Data d
        /\ currentCategory (applyReply d Samples.pizzas_session) = JStr "pizzas")
  /\ (prop Samples.pizzas_with_cheese "filterCategory" = Some (JStr "pizzas")
      /\ currentCategory (reconcile Samples.pizzas_with_cheese initial)
         = JStr "all").
Proof.
  split; [split; reflexivity|]. split; [|split; reflexivity].
  eexists. split; [vm_compute; reflexivity|]. reflexivity.
Qed.

(** C8, amended. A category that is a non-empty string, in actions that do
    not assert [withCheese], becomes the category of the session as it is,
    whatever the menu holds; when the menu has no such key (and the string is
    neither "all" nor a name that objects inherit) the list of visible items
    is empty, whatever the filters, and nothing is thrown. *)
Theorem category_set_verbatim (actions : json) (s : Session) (c : string) :
  prop actions "filterCategory" = Some (JStr c) ->
  c <> "" ->
  asserts_withCheese actions = false ->
  currentCategory (reconcile actions s) = JStr c
  /\ (forall m : Menu,
        c <> "all" -> ~ In c (map fst m) -> ~ In c Object_prototype ->
        visibleItems m (currentCategory (reconcile actions s))
          (activeFilters (reconcile actions s)) = Shown []).
Proof.
  intros Hc Hne Hw.
  assert (currentCategory (reconcile actions s) = JStr c) as E.
  { rewrite reconcile_category, Hw, Hc. simpl.
    destruct (String.eqb_spec c ""); [contradiction | reflexivity]. }
  split; [exact E|]. intros m Hall Hkey Hproto. rewrite E.
  unfold visibleItems. simpl.
  destruct (String.eqb_spec c "all"); [contradiction|].
  rewrite menu_get_unknown by assumption.
  rewrite !apply_nil. reflexivity.
Qed.

(** Outside C8: a category that names an inherited property is not met
    with an empty list; with a filter set, the effect throws. *)
Lemma inherited_name_is_not_a_list :
  visibleItems Samples.menu (JStr "constructor") noFilters = NotAList
  /\ visibleItems Samples.menu (JStr "constructor")
       (<["popular" := JBool true]> noFilters) = TypeError.
Proof. split; reflexivity. Qed.

Lemma category_set_verbatim_witness :
  currentCategory (reconcile Samples.sushis Samples.pizzas_session)
  = JStr "sushis"
  /\ visibleItems Samples.menu
       (currentCategory (reconcile Samples.sushis Samples.pizzas_session))
       (activeFilters (reconcile Samples.sushis Samples.pizzas_session))
     = Shown [].
Proof.
  destruct (category_set_verbatim Samples.sushis Samples.pizzas_session
              "sushis" eq_refl ltac:(discriminate) eq_refl) as [E H].
  split; [exact E|]. apply H; [discriminate| |].
  - simpl. intros [H1|[H1|[]]]; discriminate H1.
  - simpl. intuition discriminate.
Defined.

End HomeFacts.

(** ** The chat handler *)

Module ChatFacts.
Import Js JsFacts Http Chat.

(** The span from the first opening brace to the last closing brace. *)
Lemma braceSpan_slice (pre mid post : string) :
  ~ occurs "{" pre -> ~ occurs "}" post ->
  braceSpan (pre +:+ "{" +:+ mid +:+ "}" +:+ post) = "{" +:+ mid +:+ "}".
Proof.
  intros Hpre Hpost. unfold braceSpan, indexOf, lastIndexOf.
  change ("{" +:+ mid +:+ "}" +:+ post) with (String "{" (mid +:+ String "}" post)).
  rewrite indexOf_from_first by assumption.
  replace (pre +:+ String "{" (mid +:+ String "}" post))
    with ((pre +:+ String "{" mid) +:+ String "}" post)
    by (rewrite append_assoc; reflexivity).
  rewrite lastIndexOf_from_last by assumption.
  rewrite length_append. simpl String.length.
  set (a := String.length pre). set (b := String.length mid).
  replace (negb (0 + Z.of_nat a =? -1)) with true
    by (symmetry; apply negb_true_iff, Z.eqb_neq; lia).
  replace (negb (0 + Z.of_nat (a + S b) =? -1)) with true
    by (symmetry; apply negb_true_iff, Z.eqb_neq; lia).
  replace (0 + Z.of_nat a <? 0 + Z.of_nat (a + S b)) with true
    by (symmetry; apply Z.ltb_lt; lia).
  simpl andb. cbv iota.
  replace ((pre +:+ String "{" mid) +:+ String "}" post)
    with (pre +:+ ("{" +:+ mid +:+ "}") +:+ post).
  2:{ rewrite (append_assoc pre). f_equal.
      change (String "{" ((mid +:+ "}") +:+ post)
              = String "{" (mid +:+ String "}" post)).
      f_equal. rewrite append_assoc. reflexivity. }
  replace (0 + Z.of_nat a) with (Z.of_nat (String.length pre)) by (unfold a; lia).
  replace (0 + Z.of_nat (a + S b) + 1)
    with (Z.of_nat (String.length pre)
          + Z.of_nat (String.length ("{" +:+ mid +:+ "}"))).
  2:{ change ("{" +:+ mid +:+ "}") with (String "{" (mid +:+ "}")).
      simpl String.length. rewrite length_append.
      change (String.length "}") with 1%nat. unfold a, b. lia. }
  apply substring_middle.
Qed.

(** With no closing brace after the first opening one, nothing is cut. *)
Lemma braceSpan_unbalanced (pre rest : string) :
  ~ occurs "{" pre -> ~ occurs "}" rest ->
  braceSpan (pre +:+ String "{" rest) = pre +:+ String "{" rest.
Proof.
  intros Hpre Hrest. unfold braceSpan, indexOf, lastIndexOf.
  rewrite indexOf_from_first by assumption.
  rewrite lastIndexOf_from_app. simpl lastIndexOf_from.
  rewrite lastIndexOf_from_absent by assumption.
  destruct (lastIndexOf_from_range "}" pre 0 (-1)) as [E|E].
  - rewrite E. simpl. rewrite andb_false_r. reflexivity.
  - replace (_ <? _) with false; [now rewrite andb_false_r|].
    symmetry. apply Z.ltb_ge. lia.
Qed.

Lemma json_is_null (v : json) : {v = JNull} + {v <> JNull}.
Proof. destruct v; (now left) || (right; discriminate). Qed.

(** With no opening brace at all, nothing is cut. *)
Lemma braceSpan_no_brace (s : string) :
  ~ occurs "{" s -> braceSpan s = s.
Proof.
  intros H. unfold braceSpan, indexOf. now rewrite indexOf_from_absent.
Qed.

(** The handler hands a non-empty answer of the service to [respond]. *)
Lemma handler_respond JSON_parse env req code assistantResponse key msg :
  method req = "POST" ->
  message req = Some msg -> msg <> "" ->
  OPENAI_API_KEY env = Some key -> key <> "" ->
  ok code = true ->
  assistantResponse <> "" ->
  handler JSON_parse env req (ChatAnswered code (inr (Some assistantResponse)))
  = respond JSON_parse env assistantResponse.
Proof.
  intros Hm Hmsg Hne Hk Hkne Hok Hr. unfold handler.
  rewrite Hm, Hmsg, Hk, Hok. simpl.
  destruct msg; [contradiction|]. destruct key; [contradiction|].
  destruct assistantResponse; [contradiction|]. reflexivity.
Qed.

(** What [buildActions] holds under each name. *)
Lemma buildActions_lookup (v : json) (k : string) :
  buildActions v !! k =
  if String.eqb k "filterCategory" then requested v "category"
  else if String.eqb k "setFilters" then requested v "filters"
  else if String.eqb k "customFilters" then requested v "customFilters"
  else if String.eqb k "recommendedItems" then requested v "recommendedItems"
  else None.
Proof.
  unfold buildActions, requested, copy.
  destruct (prop v "actions") as [a|];
    [|rewrite lookup_empty; repeat destruct (String.eqb _ _); reflexivity].
  destruct (truthy a);
    [|rewrite lookup_empty; repeat destruct (String.eqb _ _); reflexivity].
  cbv zeta.
  destruct (String.eqb_spec k "filterCategory") as [->|N1];
  [|destruct (String.eqb_spec k "setFilters") as [->|N2];
    [|destruct (String.eqb_spec k "customFilters") as [->|N3];
      [|destruct (String.eqb_spec k "recommendedItems") as [->|N4]]]];
  split_prop a "category"; split_prop a "filters";
  split_prop a "customFilters"; split_prop a "recommendedItems";
  simplify_map_eq; reflexivity.
Qed.

Lemma buildActions_empty (v : json) :
  requested v "category" = None -> requested v "filters" = None ->
  requested v "customFilters" = None ->
  requested v "recommendedItems" = None ->
  buildActions v = ∅.
Proof.
  intros H1 H2 H3 H4. apply map_eq. intros k.
  rewrite buildActions_lookup, lookup_empty, H1, H2, H3, H4.
  repeat destruct (String.eqb _ _); reflexivity.
Qed.

Lemma keys_length_positive (o : gmap string json) :
  (0 <? keys_length o) = negb (bool_decide (o = ∅)).
Proof.
  unfold keys_length. destruct (bool_decide_reflect (o = ∅)) as [->|Hne]; simpl.
  - reflexivity.
  - apply Z.ltb_lt. assert (size o <> 0%nat); [|lia].
    intros E. apply Hne. now apply map_size_empty_iff.
Qed.

(** C2, as stated, fails for the empty answer: it does not decode, and the
    handler, which never tries, does not fall back: its reply is the error
    of an empty answer, with the status 500. *)
Lemma empty_answer_is_not_fallback :
  JSON.parse (cleanResponse "") = None
  /\ handler JSON.parse Samples.env Samples.request
       (ChatAnswered 200 (inr (Some "")))
     = {| status := 500;
          body := Failure
            {| error := "Réponse IA vide";
               details := Some "Aucune réponse générée par l'assistant" |} |}
  /\ handler JSON.parse Samples.env Samples.request
       (ChatAnswered 200 (inr (Some "")))
     <> fallback "".
Proof.
  split; [vm_compute; reflexivity|]. split; [vm_compute; reflexivity|].
  intros E. vm_compute in E. discriminate E.
Qed.

(** C2, amended. The service has answered the request of the handler with a
    text on which decoding the cleaned text fails.  When the text is not
    empty the reply is not an error: it has the status 200, the whole text
    as it came as its [response], and no [actions].  When the text is empty
    the reply is the error of an empty answer. *)
Theorem decode_failure_falls_back (JSON_parse : string -> option json)
    (env : Env) (req : ChatRequest) (code : Z) (key msg : string)
    (assistantResponse : string) :
  method req = "POST" ->
  message req = Some msg -> msg <> "" ->
  OPENAI_API_KEY env = Some key -> key <> "" ->
  ok code = true ->
  JSON_parse (cleanResponse assistantResponse) = None ->
  (assistantResponse <> "" ->
   handler JSON_parse env req (ChatAnswered code (inr (Some assistantResponse)))
   = {| status := 200;
        body := Data {| response := Some (JStr assistantResponse);
                        actions := None |} |})
  /\ (assistantResponse = "" ->
      handler JSON_parse env req (ChatAnswered code (inr (Some assistantResponse)))
      = {| status := 500;
           body := Failure
             {| error := "Réponse IA vide";
                details := Some "Aucune réponse générée par l'assistant" |} |}).
Proof.
  intros Hm Hmsg Hne Hk Hkne Hok H. split.
  - intros Hr.
    rewrite (handler_respond JSON_parse env req code assistantResponse key msg)
      by assumption.
    unfold respond. now rewrite H.
  - intros ->. unfold handler. rewrite Hm, Hmsg, Hk, Hok. simpl.
    destruct msg; [contradiction|]. destruct key; [contradiction|].
    reflexivity.
Qed.

(** C2, on the unbalanced sample of the specification. *)
Lemma decode_failure_falls_back_witness :
  JSON.parse (cleanResponse Samples.unbalanced) = None
  /\ handler JSON.parse Samples.env Samples.request
       (ChatAnswered 200 (inr (Some Samples.unbalanced)))
     = {| status := 200;
          body := Data {| response := Some (JStr Samples.unbalanced);
                          actions := None |} |}.
Proof.
  assert (JSON.parse (cleanResponse Samples.unbalanced) = None) as F
    by reflexivity.
  split; [exact F|].
  apply (decode_failure_falls_back JSON.parse Samples.env Samples.request 200
           "sk-test" "je voudrais une pizza" Samples.unbalanced);
    try reflexivity; try exact F; discriminate.
Defined.

(** The fenced sample of the specification: the reply text and no
    actions. *)
Lemma fenced_sample :
  cleanResponse Samples.fenced = dq "{'response':'hi'}"
  /\ respond JSON.parse Samples.env Samples.fenced
     = {| status := 200;
          body := Data {| response := Some (JStr "hi"); actions := None |} |}.
Proof. split; vm_compute; reflexivity. Qed.

(** C4, as stated, fails: an object with no [response], or with a number as
    its [response], is answered with what was decoded, not with the text. *)
Lemma missing_response_is_not_fallback :
  (exists o, JSON.parse (cleanResponse Samples.no_response) = Some (JObj o)
             /\ o !! "response" = None)
  /\ respond JSON.parse Samples.env Samples.no_response
     = {| status := 200;
          body := Data
            {| response := None;
               actions := Some (JObj {[ "filterCategory" := JStr "pizzas" ]}) |} |}
  /\ respond JSON.parse Samples.env Samples.no_response
     <> fallback Samples.no_response
  /\ respond JSON.parse Samples.env Samples.numeric_response
     = {| status := 200;
          body := Data {| response := Some (JNum 42 0); actions := None |} |}.
Proof.
  split; [eexists; split; [vm_compute; reflexivity | reflexivity]|].
  split; [vm_compute; reflexivity|].
  split; [|vm_compute; reflexivity].
  intros E. vm_compute in E. discriminate E.
Qed.

(** C4, amended. When the cleaned text decodes to an object whose
    [response] is missing or is not a string, the reply is that of any
    decoded object: the status 200, the decoded [response] as it is (none
    when it is missing) and the actions built from the decoded [actions]; it
    is not the fallback reply. *)
Theorem decoded_response_forwarded (JSON_parse : string -> option json)
    (env : Env) (raw : string) (o : gmap string json) :
  JSON_parse (cleanResponse raw) = Some (JObj o) ->
  (forall t, o !! "response" <> Some (JStr t)) ->
  respond JSON_parse env raw
  = {| status := 200;
       body := Data
         {| response := o !! "response";
            actions := if bool_decide (buildActions (JObj o) = ∅) then None
                       else Some (JObj (buildActions (JObj o))) |} |}
  /\ respond JSON_parse env raw <> fallback raw.
Proof.
  intros H Hr.
  assert (respond JSON_parse env raw = success (JObj o)) as E.
  { unfold respond. now rewrite H. }
  rewrite E. unfold success. cbv zeta. rewrite keys_length_positive. simpl prop.
  split.
  - now destruct (bool_decide _).
  - unfold fallback. intros F. injection F as F _. now apply (Hr raw).
Qed.

Lemma decoded_response_forwarded_witness :
  respond JSON.parse Samples.env Samples.numeric_response
  <> fallback Samples.numeric_response.
Proof.
  refine (proj2 (decoded_response_forwarded JSON.parse Samples.env
                   Samples.numeric_response {[ "response" := JNum 42 0 ]} _ _)).
  - vm_compute. reflexivity.
  - intros t E. vm_compute in E. discriminate E.
Defined.

(** C5, as stated, fails in its last part: a text with an opening brace and
    no closing one after it can decode, and then the fallback is not
    taken. *)
Lemma unclosed_brace_can_decode :
  indexOf "{" (stripFences Samples.brace_in_string) = 1
  /\ lastIndexOf "}" (stripFences Samples.brace_in_string) = -1
  /\ cleanResponse Samples.brace_in_string = Samples.brace_in_string
  /\ JSON.parse (cleanResponse Samples.brace_in_string) = Some (JStr "{")
  /\ respond JSON.parse Samples.env Samples.brace_in_string
     = {| status := 200;
          body := Data {| response := None; actions := None |} |}
  /\ respond JSON.parse Samples.env Samples.brace_in_string
     <> fallback Samples.brace_in_string.
Proof.
  repeat (split; [vm_compute; reflexivity|]).
  intros E. vm_compute in E. discriminate E.
Qed.

(** C5, amended. When the cleaned text has a first opening brace and, after
    it, a last closing brace, the text from the one to the other is what is
    decoded, and what surrounds it is ignored (so the sample between two
    pieces of prose gives the category "pizzas"); when no closing brace
    follows the first opening one, nothing is cut, the whole cleaned text is
    decoded, and the fallback is taken when that fails (as it does on the
    unbalanced sample). *)
Theorem brace_span_extraction :
  (forall JSON_parse env raw pre mid post,
     stripFences raw = pre +:+ "{" +:+ mid +:+ "}" +:+ post ->
     ~ occurs "{" pre -> ~ occurs "}" post ->
     cleanResponse raw = "{" +:+ mid +:+ "}"
     /\ respond JSON_parse env raw
        = match JSON_parse ("{" +:+ mid +:+ "}") with
          | None => fallback raw
          | Some JNull => internalError env null_actions
          | Some parsedResponse => success parsedResponse
          end)
  /\ respond JSON.parse Samples.env Samples.prose
     = {| status := 200;
          body := Data
            {| response := Some (JStr "ok");
               actions := Some (JObj {[ "filterCategory" := JStr "pizzas" ]}) |} |}
  /\ (forall JSON_parse env raw pre rest,
        stripFences raw = pre +:+ String "{" rest ->
        ~ occurs "{" pre -> ~ occurs "}" rest ->
        cleanResponse raw = stripFences raw
        /\ (JSON_parse (stripFences raw) = None ->
            respond JSON_parse env raw = fallback raw))
  /\ respond JSON.parse Samples.env Samples.unbalanced
     = fallback Samples.unbalanced.
Proof.
  split; [|split; [vm_compute; reflexivity|split; [|vm_compute; reflexivity]]].
  - intros JSON_parse env raw pre mid post E Hpre Hpost.
    assert (cleanResponse raw = "{" +:+ mid +:+ "}") as C.
    { unfold cleanResponse. rewrite E. now apply braceSpan_slice. }
    split; [exact C|]. unfold respond. now rewrite C.
  - intros JSON_parse env raw pre rest E Hpre Hrest.
    assert (cleanResponse raw = stripFences raw) as C.
    { unfold cleanResponse. rewrite E. now apply braceSpan_unbalanced. }
    split; [exact C|]. intros F. unfold respond. now rewrite C, F.
Qed.

Lemma brace_span_extraction_witness :
  cleanResponse Samples.prose
  = dq "{'response':'ok','actions':{'category':'pizzas'}}"
  /\ cleanResponse Samples.unbalanced = stripFences Samples.unbalanced
  /\ respond JSON.parse Samples.env Samples.unbalanced
     = fallback Samples.unbalanced.
Proof.
  destruct brace_span_extraction as (Hslice & _ & Hnone & _).
  split; [|split].
  - refine (proj1 (Hslice JSON.parse Samples.env Samples.prose
              "Here you go: "
              (dq "'response':'ok','actions':{'category':'pizzas'}")
              " Enjoy!" _ _ _)).
    + vm_compute. reflexivity.
    + vm_compute. intuition discriminate.
    + vm_compute. intuition discriminate.
  - refine (proj1 (Hnone JSON.parse Samples.env Samples.unbalanced
              "" (dq "'response': 'oops") _ _ _)).
    + vm_compute. reflexivity.
    + vm_compute. intuition discriminate.
    + vm_compute. intuition discriminate.
  - refine (proj2 (Hnone JSON.parse Samples.env Samples.unbalanced
              "" (dq "'response': 'oops") _ _ _) _).
    + vm_compute. reflexivity.
    + vm_compute. intuition discriminate.
    + vm_compute. intuition discriminate.
    + vm_compute. reflexivity.
Defined.

(** C10. Whatever the cleaned text decodes to, the [actions] object that the
    handler builds holds the decoded [category] as [filterCategory], the
    decoded [filters] as [setFilters], [customFilters] and
    [recommendedItems], each when it is truthy, and nothing else: it never
    has a [showItems] property.  The reply has no [actions] when that object
    is empty, as it is when none of the four is there, and the client then
    never reaches the [showItems] branch of [executeAIActions]. *)
Theorem actions_never_carry_showItems (JSON_parse : string -> option json)
    (env : Env) (raw : string) (v : json) :
  JSON_parse (cleanResponse raw) = Some v ->
  let acts := buildActions v in
  (acts !! "filterCategory" = requested v "category"
   /\ acts !! "setFilters" = requested v "filters"
   /\ acts !! "customFilters" = requested v "customFilters"
   /\ acts !! "recommendedItems" = requested v "recommendedItems")
  /\ (forall k, k <> "filterCategory" -> k <> "setFilters" ->
        k <> "customFilters" -> k <> "recommendedItems" -> acts !! k = None)
  /\ acts !! "showItems" = None
  /\ (v = JNull -> respond JSON_parse env raw = internalError env null_actions)
  /\ (v <> JNull ->
      respond JSON_parse env raw
      = {| status := 200;
           body := Data
             {| response := prop v "response";
                actions := if bool_decide (acts = ∅) then None
                           else Some (JObj acts) |} |})
  /\ (requested v "category" = None -> requested v "filters" = None ->
      requested v "customFilters" = None ->
      requested v "recommendedItems" = None -> acts = ∅)
  /\ (forall d s x,
        body (respond JSON_parse env raw) = Data d ->
        In (Home.ShowItems x) (Home.console (Home.applyReply d s)) ->
        In (Home.ShowItems x) (Home.console s)).
Proof.
  intros H acts.
  assert (v <> JNull ->
          respond JSON_parse env raw
          = {| status := 200;
               body := Data
                 {| response := prop v "response";
                    actions := if bool_decide (acts = ∅) then None
                               else Some (JObj acts) |} |}) as Hok.
  { intros Hv. unfold respond. rewrite H.
    assert (success v
            = {| status := 200;
                 body := Data
                   {| response := prop v "response";
                      actions := if bool_decide (acts = ∅) then None
                                 else Some (JObj acts) |} |}) as E.
    { unfold success. cbv zeta. fold acts. rewrite keys_length_positive.
      now destruct (bool_decide _). }
    destruct v; try exact E. contradiction. }
  assert (acts !! "showItems" = None) as Hshow.
  { unfold acts. rewrite buildActions_lookup. reflexivity. }
  split; [|split; [|split; [exact Hshow|split; [|split; [exact Hok|split]]]]].
  - unfold acts. rewrite !buildActions_lookup. repeat split; reflexivity.
  - intros k N1 N2 N3 N4. unfold acts. rewrite buildActions_lookup.
    apply String.eqb_neq in N1, N2, N3, N4. now rewrite N1, N2, N3, N4.
  - intros ->. unfold respond. now rewrite H.
  - apply buildActions_empty.
  - intros d s x Hd Hin.
    destruct (json_is_null v) as [->|Hv].
    { unfold respond in Hd. rewrite H in Hd. discriminate Hd. }
    rewrite (Hok Hv) in Hd. simpl in Hd. injection Hd as <-.
    unfold Home.applyReply in Hin. simpl in Hin.
    destruct (bool_decide (acts = ∅)); [exact Hin|]. simpl in Hin.
    apply HomeFacts.reconcile_console in Hin
      as [Hin|[Hin|[(c & _ & Hin)|[(c & _ & Hin)|[(c & _ & Hin)
          |[(c & _ & Hin)|(c & Hc & _)]]]]]];
      try discriminate Hin; [exact Hin|].
    simpl in Hc. rewrite Hshow in Hc. discriminate Hc.
Qed.

(** C10, on a text whose actions carry [showItems]. *)
Lemma actions_never_carry_showItems_witness :
  requested Samples.with_showItems_decoded "showItems"
  = Some (JArr [JNum 1 0; JNum 2 0])
  /\ respond JSON.parse Samples.env Samples.with_showItems
     = {| status := 200;
          body := Data
            {| response := Some (JStr "ok");
               actions :=
                 Some (JObj {[ "recommendedItems" := JArr [JNum 3 0] ]}) |} |}.
Proof.
  split; [reflexivity|].
  assert (JSON.parse (cleanResponse Samples.with_showItems)
          = Some Samples.with_showItems_decoded) as D
    by (vm_compute; reflexivity).
  destruct (actions_never_carry_showItems JSON.parse Samples.env
              Samples.with_showItems Samples.with_showItems_decoded D)
    as (_ & _ & _ & _ & Hok & _).
  rewrite Hok by discriminate. vm_compute. reflexivity.
Defined.

(** From the assistant's text to the filters: the decoded [filters], when
    truthy, reach the client as [setFilters] and are merged over the
    all-false filters, whatever the filters were. *)
Lemma assistant_filters_reset_then_merge (JSON_parse : string -> option json)
    (env : Env) (raw : string) (v f : json) (d : ChatResponse)
    (s : Home.Session) :
  JSON_parse (cleanResponse raw) = Some v ->
  requested v "filters" = Some f ->
  body (respond JSON_parse env raw) = Data d ->
  Home.activeFilters (Home.applyReply d s) = spread Home.noFilters f.
Proof.
  intros H Hf Hd.
  assert (buildActions v !! "setFilters" = Some f) as Hk
    by (rewrite buildActions_lookup; exact Hf).
  assert (truthy f = true) as Tf.
  { unfold requested in Hf.
    destruct (prop v "actions") as [a|]; [|discriminate].
    destruct (truthy a); [|discriminate].
    destruct (prop a "filters") as [x|]; [|discriminate].
    destruct (truthy x) eqn:Tx; [|discriminate]. now injection Hf as <-. }
  unfold respond in Hd. rewrite H in Hd.
  assert (success v = {| status := 200; body := Data d |} ->
          Home.activeFilters (Home.applyReply d s) = spread Home.noFilters f)
    as Hs.
  { unfold success. cbv zeta. rewrite keys_length_positive.
    destruct (bool_decide_reflect (buildActions v = ∅)) as [E|_].
    { rewrite E, lookup_empty in Hk. discriminate Hk. }
    simpl. intros F. injection F as <-. unfold Home.applyReply. simpl.
    now apply HomeFacts.filters_merged. }
  destruct v; simpl in Hd; try discriminate Hd;
    apply Hs; unfold success in *; cbv zeta in *; simpl in *;
    now injection Hd as <-.
Qed.

End ChatFacts.

(** ** The transcription handler *)

Module TranscribeFacts.
Import Js JsFacts Http Transcribe.

Ltac bytes :=
  unfold is_ws1, is_ws2, is_ws3; cbv zeta;
  repeat match goal with |- context [code ?a] => generalize (code a); intro end;
  repeat match goal with
         | |- _ /\ _ => split
         | |- _ -> _ => intro
         | |- _ = false => apply not_true_iff_false; unfold not
         | H : _ |- _ =>
             progress rewrite ?andb_true_iff, ?orb_true_iff, ?N.eqb_eq,
               ?N.leb_le in H
         end;
  lia.

Lemma ws2_not_ws1 a b : is_ws2 a b = true -> is_ws1 a = false.
Proof. bytes. Qed.

Lemma ws2_back_not_ws1 a b : is_ws2 b a = true -> is_ws1 a = false.
Proof. bytes. Qed.

Lemma ws3_not_shorter a b c :
  is_ws3 a b c = true -> is_ws1 a = false /\ is_ws2 a b = false.
Proof. bytes. Qed.

Lemma ws3_back_not_shorter a b c :
  is_ws3 c b a = true -> is_ws1 a = false /\ is_ws2 b a = false.
Proof. bytes. Qed.

(** Whitespace only is stripped to nothing. *)
Lemma strip_blank back s : blank_dir back s -> strip_ws back s = "".
Proof.
  induction 1 as [|a s Ha _ IH|a b s Hab _ IH|a b c s Habc _ IH]; simpl.
  - reflexivity.
  - now rewrite Ha.
  - destruct back.
    + now rewrite (ws2_back_not_ws1 _ _ Hab), Hab.
    + now rewrite (ws2_not_ws1 _ _ Hab), Hab.
  - destruct back.
    + destruct (ws3_back_not_shorter _ _ _ Habc) as [-> ->]. now rewrite Habc.
    + destruct (ws3_not_shorter _ _ _ Habc) as [-> ->]. now rewrite Habc.
Qed.

Lemma blank_app back w s :
  blank_dir back w -> blank_dir back s -> blank_dir back (w +:+ s).
Proof.
  induction 1; intros Hs; [exact Hs| | |].
  - apply blank_1; auto.
  - apply blank_2; auto.
  - apply blank_3; auto.
Qed.

(** What is stripped is whitespace. *)
Lemma strip_split back (n : nat) :
  forall s, (String.length s <= n)%nat ->
  exists w, blank_dir back w /\ s = w +:+ strip_ws back s.
Proof.
  induction n as [|n IH]; intros s Hn.
  - destruct s; [|simpl in Hn; lia]. exists "". split; [constructor|reflexivity].
  - destruct s as [|a r]; [exists ""; split; [constructor|reflexivity]|].
    simpl in Hn. simpl strip_ws.
    destruct (is_ws1 a) eqn:E1.
    { destruct (IH r ltac:(lia)) as (w & Hw & Er).
      exists (String a w). split; [now apply blank_1|].
      change (String a w +:+ strip_ws back r) with (String a (w +:+ strip_ws back r)).
      now rewrite <- Er. }
    destruct r as [|b r2]; [exists ""; split; [constructor|reflexivity]|].
    simpl in Hn.
    destruct (if back then is_ws2 b a else is_ws2 a b) eqn:E2.
    { destruct (IH r2 ltac:(lia)) as (w & Hw & Er).
      exists (String a (String b w)). split; [now apply blank_2|].
      change (String a (String b w) +:+ strip_ws back r2)
        with (String a (String b (w +:+ strip_ws back r2))).
      now rewrite <- Er. }
    destruct r2 as [|c r3]; [exists ""; split; [constructor|reflexivity]|].
    simpl in Hn.
    destruct (if back then is_ws3 c b a else is_ws3 a b c) eqn:E3.
    { destruct (IH r3 ltac:(lia)) as (w & Hw & Er).
      exists (String a (String b (String c w))). split; [now apply blank_3|].
      change (String a (String b (String c w)) +:+ strip_ws back r3)
        with (String a (String b (String c (w +:+ strip_ws back r3)))).
      now rewrite <- Er. }
    exists "". split; [constructor|reflexivity].
Qed.

Lemma strip_empty back s : strip_ws back s = "" <-> blank_dir back s.
Proof.
  split; [|apply strip_blank].
  intros E. destruct (strip_split back (String.length s) s (le_n _))
    as (w & Hw & Es).
  rewrite E, append_empty_r in Es. now subst s.
Qed.

Lemma rev_app_append (s acc : string) :
  String.rev_app s acc = String.rev s +:+ acc.
Proof.
  revert acc. induction s as [|a s IH]; intros acc; [reflexivity|].
  unfold String.rev. simpl. rewrite (IH (String a acc)), (IH (String a "")).
  rewrite append_assoc. reflexivity.
Qed.

Lemma rev_String a (s : string) : String.rev (String a s) = String.rev s +:+ String a "".
Proof. unfold String.rev at 1. simpl. apply rev_app_append. Qed.

Lemma rev_append (s t : string) : String.rev (s +:+ t) = String.rev t +:+ String.rev s.
Proof.
  induction s as [|a s IH].
  - change ("" +:+ t) with t. now rewrite append_empty_r.
  - change (String a s +:+ t) with (String a (s +:+ t)).
    rewrite !rev_String, IH. apply append_assoc.
Qed.

Lemma rev_rev (s : string) : String.rev (String.rev s) = s.
Proof.
  induction s as [|a s IH]; [reflexivity|].
  rewrite rev_String, rev_append, IH. reflexivity.
Qed.

Lemma rev_empty (s : string) : String.rev s = "" <-> s = "".
Proof.
  split; [|now intros ->].
  intros E. rewrite <- (rev_rev s), E. reflexivity.
Qed.

(** Read the other way round, whitespace is whitespace. *)
Lemma blank_rev u : blank_dir true u -> blank_dir false (String.rev u).
Proof.
  induction 1 as [|a s Ha _ IH|a b s Hab _ IH|a b c s Habc _ IH].
  - constructor.
  - rewrite rev_String. apply blank_app; [exact IH|].
    apply blank_1; [exact Ha|constructor].
  - rewrite !rev_String, append_assoc. apply blank_app; [exact IH|].
    apply (blank_2 false b a); [exact Hab|constructor].
  - rewrite !rev_String, !append_assoc. apply blank_app; [exact IH|].
    apply (blank_3 false c b a); [exact Habc|constructor].
Qed.

(** [trim] leaves nothing exactly of the texts that are empty or made of
    whitespace only. *)
Lemma trim_empty (s : string) : trim s = "" <-> blank s.
Proof.
  unfold trim, trimEnd, trimStart, blank. rewrite rev_empty. split.
  - intros E. apply strip_empty in E. apply blank_rev in E.
    rewrite rev_rev in E.
    destruct (strip_split false (String.length s) s (le_n _)) as (w & Hw & Es).
    rewrite Es. now apply blank_app.
  - intros B. rewrite (strip_blank false s B). reflexivity.
Qed.

(** C9. Once the request has reached the transcription service (a POST with
    an audio file, the key configured): an answer of the service without
    text, or whose text is empty or made of whitespace only, gets the reply
    "no speech" (status 400, "Aucun texte détecté"); an answer that is not a
    success gets a reply with the status of the service, and a call that
    fails to go through the reply of the [catch], both different from "no
    speech"; any other text is returned, trimmed, with the status 200. *)
Theorem no_speech_is_its_own_condition (env : Env) (req : TranscribeRequest)
    (key file : string) :
  method req = "POST" ->
  OPENAI_API_KEY env = Some key -> key <> "" ->
  audio req = inr (Some file) ->
  (forall code errorText t,
     ok code = true ->
     (w_text t = None \/ exists txt, w_text t = Some txt /\ blank txt) ->
     handler env req (WhisperAnswered code errorText (inr t))
     = {| status := 400;
          body := Failure
            {| error := "Aucun texte détecté";
               details :=
                 Some "L'audio ne contient pas de parole identifiable" |} |})
  /\ (forall code errorText tr,
        ok code = false ->
        handler env req (WhisperAnswered code errorText tr)
        = {| status := code;
             body := Failure
               {| error := "Erreur lors de la transcription";
                  details :=
                    Some ("API Whisper: " +:+ pretty code +:+ " - "
                          +:+ errorText) |} |}
        /\ handler env req (WhisperAnswered code errorText tr) <> noSpeech)
  /\ (forall msg,
        handler env req (WhisperRejected msg) = caught env msg
        /\ handler env req (WhisperRejected msg) <> noSpeech)
  /\ (forall code errorText t txt,
        ok code = true -> w_text t = Some txt -> ~ blank txt ->
        exists lang conf,
          handler env req (WhisperAnswered code errorText (inr t))
          = {| status := 200;
               body := Data {| text := trim txt; language := lang;
                               confidence := conf |} |}).
Proof.
  intros Hm Hk Hkne Ha.
  assert (forall up,
            handler env req up =
            match up with
            | WhisperRejected msg => caught env msg
            | WhisperAnswered code errorText transcription =>
                if negb (ok code) then
                  failure code "Erreur lors de la transcription"
                    ("API Whisper: " +:+ pretty code +:+ " - " +:+ errorText)
                else
                  match transcription with
                  | inl msg => caught env msg
                  | inr t => transcribed req t
                  end
            end) as Hup.
  { intros up. unfold handler. rewrite Hm, Hk, Ha. simpl.
    destruct key; [contradiction|reflexivity]. }
  split; [|split; [|split]].
  - intros code errorText t Hok Ht. rewrite Hup, Hok. simpl. unfold transcribed.
    destruct Ht as [->|(txt & -> & B)]; [reflexivity|].
    destruct txt; [reflexivity|].
    apply trim_empty in B. rewrite B. reflexivity.
  - intros code errorText tr Hok. rewrite Hup, Hok. simpl.
    split; [reflexivity|]. unfold failure, noSpeech. intros E.
    injection E as _ E. discriminate E.
  - intros msg. rewrite Hup. split; [reflexivity|].
    unfold caught, noSpeech, failure.
    repeat match goal with |- context [if ?b then _ else _] => destruct b end;
      intros E; discriminate E.
  - intros code errorText t txt Hok Ht B. rewrite Hup, Hok. simpl.
    unfold transcribed. rewrite Ht.
    assert (trim txt <> "") as N by (intros E; apply B, trim_empty, E).
    destruct txt; [exfalso; apply B; constructor|].
    destruct (String.eqb_spec (trim (String a txt)) ""); [contradiction|].
    eexists _, _. reflexivity.
Qed.

(** C9, on a blank transcription, a refusal of the service and a spoken
    sentence. *)
Lemma no_speech_is_its_own_condition_witness :
  handler Samples.env Samples.upload
    (WhisperAnswered 200 "" (inr (Samples.heard "  "))) = noSpeech
  /\ status (handler Samples.env Samples.upload
               (WhisperAnswered 429 "rate limit" (inl None))) = 429
  /\ exists lang conf,
       handler Samples.env Samples.upload
         (WhisperAnswered 200 "" (inr (Samples.heard " une pizza ")))
       = {| status := 200;
            body := Data {| text := "une pizza"; language := lang;
                            confidence := conf |} |}.
Proof.
  destruct (no_speech_is_its_own_condition Samples.env
              Samples.upload "sk-test" "/tmp/upload.webm"
              eq_refl eq_refl ltac:(discriminate) eq_refl)
    as (Hblank & Hfail & _ & Hok).
  split; [|split].
  - apply Hblank; [reflexivity|]. right. exists "  ". split; [reflexivity|].
    apply blank_1; [reflexivity|]. apply blank_1; [reflexivity|]. constructor.
  - rewrite (proj1 (Hfail 429 "rate limit" (inl None) eq_refl)). reflexivity.
  - apply (Hok 200 "" (Samples.heard " une pizza ") " une pizza ");
      [reflexivity|reflexivity|].
    intros B. apply trim_empty in B. vm_compute in B. discriminate B.
Defined.

End TranscribeFacts.

(** ** More on the chat route *)

Module ChatMore.
Import Js JsFacts Http Chat ChatFacts TranscribeFacts Text.

Lemma occurs_append x (s t : string) :
  occurs x (s +:+ t) <-> occurs x s \/ occurs x t.
Proof.
  induction s as [|a s IH].
  - change ("" +:+ t) with t. unfold occurs at 2. simpl. tauto.
  - rewrite append_cons, !occurs_cons, IH. tauto.
Qed.

Lemma occurs_rev x (s : string) : occurs x (String.rev s) <-> occurs x s.
Proof.
  induction s as [|a s IH]; [reflexivity|].
  rewrite rev_String, occurs_append, IH, !occurs_cons.
  unfold occurs at 2. simpl. tauto.
Qed.

(** A character below 128 that is not whitespace is part of no whitespace
    character. *)
Lemma plain_not_ws2 c b :
  (code c < 128)%N -> is_ws2 c b = false /\ is_ws2 b c = false.
Proof. bytes. Qed.

Lemma plain_not_ws3 c a b :
  (code c < 128)%N ->
  is_ws3 c a b = false /\ is_ws3 a c b = false /\ is_ws3 a b c = false.
Proof. bytes. Qed.

(** Stripping whitespace stops at such a character at the latest. *)
Lemma strip_ws_stops back c (n : nat) :
  (code c < 128)%N -> is_ws1 c = false ->
  forall P R, (String.length P <= n)%nat ->
  exists P', strip_ws back (P +:+ String c R) = P' +:+ String c R
             /\ (forall x, occurs x P' -> occurs x P).
Proof.
  intros Hc Hw. induction n as [|n IH]; intros P R Hn.
  - destruct P; [|simpl in Hn; lia]. exists "". split; [|tauto].
    change ("" +:+ String c R) with (String c R). simpl. rewrite Hw.
    destruct R as [|b r2]; [reflexivity|].
    destruct (plain_not_ws2 c b Hc) as [-> ->].
    destruct r2 as [|x r3]; [now destruct back|].
    destruct (plain_not_ws3 c b x Hc) as (-> & _ & _).
    destruct (plain_not_ws3 c x b Hc) as (_ & _ & ->).
    now destruct back.
  - destruct P as [|a P1]; [apply (IH "" R); simpl; lia|].
    simpl in Hn. rewrite append_cons. simpl strip_ws.
    destruct (is_ws1 a) eqn:E1.
    { destruct (IH P1 R ltac:(lia)) as (P' & E & S). exists P'.
      split; [exact E|]. intros x Hx. apply occurs_cons. right. now apply S. }
    assert (exists P', String a (P1 +:+ String c R) = P' +:+ String c R
                       /\ (forall x, occurs x P' -> occurs x (String a P1)))
      as Stay by (exists (String a P1); split; [reflexivity|tauto]).
    destruct P1 as [|b P2].
    { change ("" +:+ String c R) with (String c R).
      destruct (plain_not_ws2 c a Hc) as [-> ->].
      destruct R as [|x r3]; [now destruct back|].
      destruct (plain_not_ws3 c a x Hc) as (_ & -> & _).
      destruct (plain_not_ws3 c x a Hc) as (_ & -> & _).
      now destruct back. }
    simpl in Hn. rewrite append_cons.
    destruct (if back then is_ws2 b a else is_ws2 a b) eqn:E2.
    { destruct (IH P2 R ltac:(lia)) as (P' & E & S). exists P'.
      split; [exact E|]. intros x Hx. apply occurs_cons. right.
      apply occurs_cons. right. now apply S. }
    destruct P2 as [|x P3].
    { change ("" +:+ String c R) with (String c R).
      destruct (plain_not_ws3 c a b Hc) as (_ & _ & ->).
      destruct (plain_not_ws3 c b a Hc) as (-> & _ & _).
      now destruct back. }
    simpl in Hn. rewrite append_cons.
    destruct (if back then is_ws3 x b a else is_ws3 a b x) eqn:E3.
    { destruct (IH P3 R ltac:(lia)) as (P' & E & S). exists P'.
      split; [exact E|]. intros y Hy. apply occurs_cons. right.
      apply occurs_cons. right. apply occurs_cons. right. now apply S. }
    exact Stay.
Qed.

Lemma trimEnd_stops c P R :
  (code c < 128)%N -> is_ws1 c = false ->
  exists R', trimEnd (P +:+ String c R) = P +:+ String c R'
             /\ (forall x, occurs x R' -> occurs x R).
Proof.
  intros Hc Hw. unfold trimEnd.
  assert (String.rev (P +:+ String c R)
          = String.rev R +:+ String c (String.rev P)) as E.
  { rewrite rev_append, rev_String, append_assoc. reflexivity. }
  rewrite E.
  destruct (strip_ws_stops true c (String.length (String.rev R)) Hc Hw
              (String.rev R) (String.rev P) (le_n _)) as (R1 & E1 & S1).
  rewrite E1. exists (String.rev R1). split.
  - rewrite rev_append, rev_String, rev_rev, append_assoc. reflexivity.
  - intros x Hx. apply (proj1 (occurs_rev x R1)) in Hx. apply S1 in Hx.
    exact (proj1 (occurs_rev x R) Hx).
Qed.

Lemma strip_prefix_stops c p :
  ~ occurs c p ->
  forall P R r,
    strip_prefix p (P +:+ String c R) = Some r ->
    exists P', r = P' +:+ String c R /\ (forall x, occurs x P' -> occurs x P).
Proof.
  induction p as [|a p IH]; intros Hp P R r E.
  - simpl in E. injection E as <-. exists P. tauto.
  - destruct P as [|b P1].
    + change ("" +:+ String c R) with (String c R) in E. simpl in E.
      destruct (Ascii.eqb a c) eqn:Eq; [|discriminate E].
      apply Ascii.eqb_eq in Eq. exfalso. apply Hp. apply occurs_cons. now left.
    + rewrite append_cons in E. simpl in E.
      destruct (Ascii.eqb a b); [|discriminate E].
      destruct (IH (fun H => Hp (proj2 (occurs_cons c a p) (or_intror H)))
                  P1 R r E) as (P' & E' & S).
      exists P'. split; [exact E'|]. intros x Hx. apply occurs_cons. right.
      now apply S.
Qed.

Lemma strip_suffix_stops c p :
  ~ occurs c p ->
  forall P R r,
    strip_suffix p (P +:+ String c R) = Some r ->
    exists R', r = P +:+ String c R' /\ (forall x, occurs x R' -> occurs x R).
Proof.
  intros Hp P R r E. unfold strip_suffix in E.
  assert (String.rev (P +:+ String c R)
          = String.rev R +:+ String c (String.rev P)) as F.
  { rewrite rev_append, rev_String, append_assoc. reflexivity. }
  rewrite F in E.
  destruct (strip_prefix (String.rev p) _) as [r1|] eqn:E1; [|discriminate E].
  injection E as <-.
  destruct (strip_prefix_stops c (String.rev p)
              (fun H => Hp (proj1 (occurs_rev c p) H)) _ _ _ E1)
    as (R1 & -> & S1).
  exists (String.rev R1). split.
  - rewrite rev_append, rev_String, rev_rev, append_assoc. reflexivity.
  - intros x Hx. apply (proj1 (occurs_rev x R1)) in Hx. apply S1 in Hx.
    exact (proj1 (occurs_rev x R) Hx).
Qed.

Lemma open_brace_plain : (code "{" < 128)%N /\ is_ws1 "{" = false.
Proof. split; reflexivity. Qed.

Lemma close_brace_plain : (code "}" < 128)%N /\ is_ws1 "}" = false.
Proof. split; reflexivity. Qed.

Lemma framed_right mid P Q :
  P +:+ String "{" (mid +:+ String "}" Q)
  = (P +:+ String "{" mid) +:+ String "}" Q.
Proof. rewrite append_assoc. reflexivity. Qed.

Lemma trimStart_framed mid s : framed mid s -> framed mid (trimStart s).
Proof.
  intros (P & Q & -> & HP & HQ). unfold trimStart.
  destruct open_brace_plain as [Hc Hw].
  destruct (strip_ws_stops false "{" (String.length P) Hc Hw P
              (mid +:+ String "}" Q) (le_n _)) as (P' & E & S).
  rewrite E. exists P', Q. repeat split; auto.
Qed.

Lemma trimEnd_framed mid s : framed mid s -> framed mid (trimEnd s).
Proof.
  intros (P & Q & -> & HP & HQ). rewrite framed_right.
  destruct close_brace_plain as [Hc Hw].
  destruct (trimEnd_stops "}" (P +:+ String "{" mid) Q Hc Hw) as (Q' & E & S).
  rewrite E, <- framed_right. exists P, Q'. repeat split; auto.
Qed.

Lemma strip_prefix_framed p mid s r :
  ~ occurs "{" p -> strip_prefix p s = Some r -> framed mid s -> framed mid r.
Proof.
  intros Hp E (P & Q & -> & HP & HQ).
  destruct (strip_prefix_stops "{" p Hp _ _ _ E) as (P' & -> & S).
  exists P', Q. repeat split; auto.
Qed.

Lemma strip_suffix_framed p mid s r :
  ~ occurs "}" p -> strip_suffix p s = Some r -> framed mid s -> framed mid r.
Proof.
  intros Hp E (P & Q & -> & HP & HQ). rewrite framed_right in E.
  destruct (strip_suffix_stops "}" p Hp _ _ _ E) as (Q' & -> & S).
  rewrite <- framed_right. exists P, Q'. repeat split; auto.
Qed.

Lemma replace_prefix_framed p mid s :
  ~ occurs "{" p -> framed mid s -> framed mid (replace_prefix p s).
Proof.
  intros Hp F. unfold replace_prefix.
  destruct (strip_prefix p s) as [r|] eqn:E; [|exact F].
  apply trimStart_framed. now apply (strip_prefix_framed p mid s r).
Qed.

(** The steps that remove fences and prefixes leave the span alone. *)
Lemma stripFences_framed mid s : framed mid s -> framed mid (stripFences s).
Proof.
  intros F. unfold stripFences, trim.
  assert (forall p, In p ["```json"; "json"; quote +:+ "json"; "```"] ->
            ~ occurs "{" p) as Hp.
  { intros p Hin. simpl in Hin.
    repeat (destruct Hin as [<-|Hin]; [vm_compute; intuition discriminate|]).
    destruct Hin. }
  unfold replace_opening_fence.
  set (s1 := replace_prefix (quote +:+ "json")
               (replace_prefix "json"
                  (replace_closing_fence
                     (replace_prefix "```json" (trimEnd (trimStart s)))))).
  assert (framed mid s1) as F1.
  { unfold s1. apply replace_prefix_framed; [apply Hp; simpl; tauto|].
    apply replace_prefix_framed; [apply Hp; simpl; tauto|].
    unfold replace_closing_fence.
    assert (framed mid (replace_prefix "```json" (trimEnd (trimStart s)))) as F0.
    { apply replace_prefix_framed; [apply Hp; simpl; tauto|].
      now apply trimEnd_framed, trimStart_framed. }
    destruct (strip_suffix "```" _) as [r|] eqn:E; [|exact F0].
    apply trimEnd_framed.
    refine (strip_suffix_framed "```" mid _ r _ E F0).
    vm_compute. intuition discriminate. }
  destruct (strip_prefix "```" (trimStart s1)) as [r|] eqn:E; [|exact F1].
  apply trimStart_framed.
  apply (strip_prefix_framed "```" mid (trimStart s1) r);
    [apply Hp; simpl; tauto|exact E|now apply trimStart_framed].
Qed.

(** X1. Whatever surrounds it, the text from the first opening brace to the
    last closing brace of the assistant's answer is what is decoded: the
    removal of whitespace, code fences and [json] prefixes never touches
    it. *)
Theorem cleanResponse_is_the_brace_span (pre mid post : string) :
  ~ occurs "{" pre -> ~ occurs "}" post ->
  cleanResponse (pre +:+ "{" +:+ mid +:+ "}" +:+ post) = "{" +:+ mid +:+ "}".
Proof.
  intros Hpre Hpost. unfold cleanResponse.
  destruct (stripFences_framed mid (pre +:+ "{" +:+ mid +:+ "}" +:+ post))
    as (P & Q & -> & HP & HQ).
  { exists pre, post. repeat split; auto. }
  now apply (braceSpan_slice P mid Q).
Qed.

Lemma cleanResponse_is_the_brace_span_witness :
  cleanResponse Samples.fenced_with_prose = dq "{'response':'hi'}".
Proof.
  apply (cleanResponse_is_the_brace_span
           ("Voici : ```json" +:+ String (ascii_of_N 10) "")
           (dq "'response':'hi'")
           (String (ascii_of_N 10) "``` Bon appetit !"));
    vm_compute; intuition discriminate.
Defined.

(** The replies of the handler, case by case. *)
Lemma handler_cases JSON_parse env req up :
  let r := handler JSON_parse env req up in
  (exists e, body r = Failure e /\ ok (status r) = false)
  \/ (exists code raw msg key,
        method req = "POST" /\ message req = Some msg /\ msg <> ""
        /\ OPENAI_API_KEY env = Some key /\ key <> ""
        /\ up = ChatAnswered code (inr (Some raw)) /\ ok code = true
        /\ raw <> "" /\ r = respond JSON_parse env raw).
Proof.
  unfold handler.
  destruct (String.eqb_spec (method req) "POST") as [Hm|_]; simpl;
    [|left; eexists; split; reflexivity].
  destruct (message req) as [[|a msg]|] eqn:Hmsg;
    try (left; eexists; split; reflexivity).
  destruct (OPENAI_API_KEY env) as [[|b key]|] eqn:Hk;
    try (left; eexists; split; reflexivity).
  destruct up as [m|code content];
    [left; eexists; split; reflexivity|].
  destruct (ok code) eqn:Hok; simpl;
    [|left; eexists; split; [reflexivity|exact Hok]].
  destruct content as [m|[[|x raw]|]];
    try (left; eexists; split; reflexivity).
  right. exists code, (String x raw), (String a msg), (String b key).
  repeat split; auto; discriminate.
Qed.

Lemma respond_cases JSON_parse env raw :
  (exists e, body (respond JSON_parse env raw) = Failure e
             /\ status (respond JSON_parse env raw) = 500
             /\ JSON_parse (cleanResponse raw) = Some JNull)
  \/ (exists d, respond JSON_parse env raw = {| status := 200; body := Data d |}
                /\ JSON_parse (cleanResponse raw) <> Some JNull).
Proof.
  unfold respond.
  destruct (JSON_parse (cleanResponse raw)) as [v|];
    [|right; eexists; split; [reflexivity|discriminate]].
  destruct v; try (right; eexists; split; [reflexivity|discriminate]).
  left. eexists. repeat split; reflexivity.
Qed.

(** An error reply is no success for [fetch]. *)
Lemma handler_failure_status JSON_parse env req up e :
  body (handler JSON_parse env req up) = Failure e ->
  ok (status (handler JSON_parse env req up)) = false.
Proof.
  destruct (handler_cases JSON_parse env req up)
    as [(e' & He & Hs)|(code & raw & msg & key & H1 & H2 & H3 & H4 & H5 & H6
                        & H7 & H8 & H9)]; [intros _; exact Hs|].
  rewrite H9.
  destruct (respond_cases JSON_parse env raw)
    as [(e' & He & Hs & Hn)|(d & Hd & Hn)].
  - intros _. now rewrite Hs.
  - rewrite Hd. discriminate.
Qed.

(** X2. The chat handler answers 200 exactly when its body is a chat
    response, and it does so only to a POST with a message, with the key
    configured, when the service has answered with a success and a text that
    is not empty and does not decode to [null]; every error reply has a
    status that [fetch] does not count as a success. *)
Theorem chat_reply_is_data_exactly_when_200 (JSON_parse : string -> option json)
    (env : Env) (req : ChatRequest) (up : ChatGPT) :
  let r := handler JSON_parse env req up in
  (status r = 200 <-> exists d, body r = Data d)
  /\ (forall e, body r = Failure e -> ok (status r) = false)
  /\ (forall d, body r = Data d ->
        method req = "POST"
        /\ (exists msg, message req = Some msg /\ msg <> "")
        /\ (exists key, OPENAI_API_KEY env = Some key /\ key <> "")
        /\ exists code raw,
             up = ChatAnswered code (inr (Some raw)) /\ ok code = true
             /\ raw <> "" /\ JSON_parse (cleanResponse raw) <> Some JNull).
Proof.
  intros r. destruct (handler_cases JSON_parse env req up)
    as [(e & He & Hs)|(code & raw & msg & key & H1 & H2 & H3 & H4 & H5 & H6
                       & H7 & H8 & H9)]; fold r in He, Hs || fold r in H9.
  - split; [|split].
    + split.
      * intros E. rewrite E in Hs. discriminate Hs.
      * intros (d & Hd). congruence.
    + intros _ _. exact Hs.
    + intros d Hd. congruence.
  - destruct (respond_cases JSON_parse env raw)
      as [(e & He & Hs & Hn)|(d & Hd & Hn)]; rewrite <- H9 in *.
    + split; [|split].
      * split; [intros E; rewrite E in Hs; discriminate Hs
               |intros (d & Hd); congruence].
      * intros _ _. now rewrite Hs.
      * intros d Hd. congruence.
    + split; [|split].
      * rewrite Hd. simpl. split; [intros _; now exists d|reflexivity].
      * intros e He. rewrite Hd in He. discriminate He.
      * intros _ _. repeat split; eauto 10.
Qed.

Lemma requested_truthy v name x :
  requested v name = Some x -> truthy x = true.
Proof.
  unfold requested. destruct (prop v "actions") as [a|]; [|discriminate].
  destruct (truthy a); [|discriminate].
  destruct (prop a name) as [y|]; [|discriminate].
  destruct (truthy y) eqn:T; [|discriminate]. now intros [= <-].
Qed.

Lemma copy_size from k k' (to : gmap string json) :
  (size (copy from k k' to) <= S (size to))%nat.
Proof.
  unfold copy. destruct (prop from k) as [v|]; [|lia].
  destruct (truthy v); [|lia]. rewrite map_size_insert.
  destruct (to !! k'); simpl; lia.
Qed.

(** Reading a property of what has arrived. *)
Lemma prop_wire v k : prop (wire v) k = wire <$> prop v k.
Proof.
  destruct v as [|b|m e|s|l|o]; simpl; try reflexivity.
  - now destruct (overflows m e).
  - apply lookup_fmap.
Qed.

(** What has arrived is truthy when what was sent is, [Infinity] apart. *)
Lemma truthy_wire x :
  truthy (wire x)
  = truthy x && negb match x with JNum m e => overflows m e | _ => false end.
Proof.
  destruct x as [|b|m e|s|l|o]; simpl; try reflexivity.
  - now rewrite andb_true_r.
  - destruct (overflows m e); simpl;
      [now rewrite andb_false_r|now rewrite andb_true_r].
  - now rewrite andb_true_r.
Qed.


(** X3. The [actions] object that the handler builds has at most four
    properties, under the four names that [executeAIActions] reads, and the
    value of each is truthy in the handler.  The client finds the same
    properties, and each passes its test [if (actions.k)] there, but for a
    number that the handler has read as [Infinity], which arrives as
    [null]. *)
Theorem built_actions_are_truthy (v : json) :
  (keys_length (buildActions v) <= 4)
  /\ (forall k x, buildActions v !! k = Some x ->
        truthy x = true
        /\ In k ["filterCategory"; "setFilters"; "customFilters";
                 "recommendedItems"]
        /\ prop (wire (JObj (buildActions v))) k = Some (wire x)
        /\ truthy (wire x)
           = negb match x with JNum m e => overflows m e | _ => false end)
  /\ (forall k, buildActions v !! k = None ->
        prop (wire (JObj (buildActions v))) k = None).
Proof.
  assert (forall k x, buildActions v !! k = Some x ->
            truthy x = true
            /\ In k ["filterCategory"; "setFilters"; "customFilters";
                     "recommendedItems"]) as H.
  { intros k x. rewrite buildActions_lookup. simpl.
    destruct (String.eqb_spec k "filterCategory") as [->|_];
      [intros H; split; [exact (requested_truthy _ _ _ H)|tauto]|].
    destruct (String.eqb_spec k "setFilters") as [->|_];
      [intros H; split; [exact (requested_truthy _ _ _ H)|tauto]|].
    destruct (String.eqb_spec k "customFilters") as [->|_];
      [intros H; split; [exact (requested_truthy _ _ _ H)|tauto]|].
    destruct (String.eqb_spec k "recommendedItems") as [->|_];
      [intros H; split; [exact (requested_truthy _ _ _ H)|tauto]|].
    discriminate. }
  split; [|split].
  - unfold keys_length, buildActions.
    destruct (prop v "actions") as [a|]; [|rewrite map_size_empty; lia].
    destruct (truthy a); [|rewrite map_size_empty; lia]. cbv zeta.
    pose proof (copy_size a "recommendedItems" "recommendedItems"
      (copy a "customFilters" "customFilters"
         (copy a "filters" "setFilters"
            (copy a "category" "filterCategory" ∅)))) as H4.
    pose proof (copy_size a "customFilters" "customFilters"
         (copy a "filters" "setFilters"
            (copy a "category" "filterCategory" ∅))) as H3.
    pose proof (copy_size a "filters" "setFilters"
            (copy a "category" "filterCategory" ∅)) as H2.
    pose proof (copy_size a "category" "filterCategory" ∅) as H1.
    rewrite map_size_empty in H1. lia.
  - intros k x E. destruct (H k x E) as [T I].
    split; [exact T|]. split; [exact I|]. split.
    + rewrite prop_wire. simpl. now rewrite E.
    + now rewrite truthy_wire, T.
  - intros k E. rewrite prop_wire. simpl. now rewrite E.
Qed.




End ChatMore.

(** ** The visible items and the filters *)

Module PageFacts.
Import Js Http Home Recorder Page HomeFacts.

Lemma filter_and {A} (f g : A -> bool) (l : list A) :
  List.filter f (List.filter g l) = List.filter (fun x => g x && f x) l.
Proof.
  induction l as [|x l IH]; simpl; [reflexivity|].
  destruct (g x); simpl; [destruct (f x)|]; now rewrite IH.
Qed.

Lemma filter_sublist {A} (f : A -> bool) (l : list A) :
  List.filter f l `sublist_of` l.
Proof.
  induction l as [|x l IH]; simpl; [constructor|].
  destruct (f x); now constructor.
Qed.

Lemma filter_concat {A} (f : A -> bool) (ls : list (list A)) :
  List.filter f (concat ls) = concat (map (List.filter f) ls).
Proof.
  induction ls as [|l ls IH]; simpl; [reflexivity|].
  now rewrite List.filter_app, IH.
Qed.

(** One step of the effect is a filter whose test holds when the flag is
    not set. *)
Lemma apply_as_filter filters k test l :
  apply filters k test (Shown l)
  = Shown (List.filter (fun x => implb (truthy_opt (filters !! k)) (test x)) l).
Proof.
  unfold apply. destruct (truthy_opt (filters !! k)); simpl; [reflexivity|].
  f_equal. induction l as [|x l IH]; simpl; [reflexivity|]. now rewrite <- IH.
Qed.

(** The items at the start of the effect: those of the category. *)
Lemma visibleItems_unfiltered m category :
  visibleItems m category ∅ =
  if is_string "all" category then Shown (all_items m)
  else
    match ToString category with
    | Some key =>
        match menu_get m key with
        | Own l => Shown l
        | Missing => Shown []
        | Inherited => NotAList
        end
    | None => TypeError
    end.
Proof. unfold visibleItems. rewrite !apply_off by reflexivity. reflexivity. Qed.

(** The filters in sequence are one filter by their conjunction. *)
Lemma visibleItems_filter m category filters l :
  visibleItems m category ∅ = Shown l ->
  visibleItems m category filters = Shown (List.filter (passes filters) l).
Proof.
  rewrite visibleItems_unfiltered. intros E. unfold visibleItems. rewrite E.
  rewrite !apply_as_filter, !filter_and. f_equal.
  apply List.filter_ext. intros x. unfold passes. now rewrite !andb_assoc.
Qed.

(** A list is shown only from a category that gives a list. *)
Lemma visibleItems_shown m category filters l :
  visibleItems m category filters = Shown l ->
  exists l0, visibleItems m category ∅ = Shown l0.
Proof.
  rewrite visibleItems_unfiltered. unfold visibleItems.
  destruct (if is_string "all" category then _ else _) as [l0| |];
    [now exists l0| |];
    unfold apply; intros E;
    repeat match type of E with
           | context [truthy_opt ?x] => destruct (truthy_opt x)
           end; discriminate E.
Qed.

(** X5. The filters that are set act as their conjunction: the visible items
    are the items of the category that pass the test of every filter that is
    set, in the order of the category and each as often as there. *)
Theorem visible_items_pass_every_set_filter (m : Menu) (category : json)
    (filters : gmap string json) (l : list MenuItem) :
  visibleItems m category ∅ = Shown l ->
  visibleItems m category filters = Shown (List.filter (passes filters) l)
  /\ List.filter (passes filters) l `sublist_of` l
  /\ (forall item,
        In item (List.filter (passes filters) l) <->
        In item l
        /\ (truthy_opt (filters !! "vegetarian") = true -> vegetarian item = true)
        /\ (truthy_opt (filters !! "vegan") = true -> vegan item = true)
        /\ (truthy_opt (filters !! "halal") = true -> halal item = true)
        /\ (truthy_opt (filters !! "popular") = true -> popular item = true)
        /\ (truthy_opt (filters !! "noAllergens") = true -> allergens item = [])
        /\ (truthy_opt (filters !! "noCheese") = true ->
            ~ In "lait" (allergens item) \/ cheeseRemovable item = Some true)).
Proof.
  intros E. split; [now apply visibleItems_filter|].
  split; [apply filter_sublist|].
  intros item. rewrite filter_In. unfold passes.
  rewrite !andb_true_iff, !implb_true_iff, Nat.eqb_eq.
  rewrite withoutCheese_spec.
  assert (length (allergens item) = 0%nat <-> allergens item = []) as ->
    by (destruct (allergens item); simpl; split; congruence).
  tauto.
Qed.

Lemma visible_items_pass_every_set_filter_witness :
  visibleItems Samples.menu (JStr "pizzas")
    (<["popular" := JBool true]> noFilters)
  = Shown [Samples.margherita].
Proof.
  rewrite (proj1 (visible_items_pass_every_set_filter Samples.menu
                    (JStr "pizzas") (<["popular" := JBool true]> noFilters)
                    [Samples.margherita; Samples.quattro] eq_refl)).
  reflexivity.
Defined.

Lemma passes_more (f g : gmap string json) item :
  (forall k, In k filterKeys ->
     truthy_opt (f !! k) = true -> truthy_opt (g !! k) = true) ->
  passes g item = true -> passes f item = true.
Proof.
  intros H. unfold passes. rewrite !andb_true_iff, !implb_true_iff.
  intros (((((H1 & H2) & H3) & H4) & H5) & H6).
  repeat split; intros T; [apply H1|apply H2|apply H3|apply H4|apply H5|apply H6];
    apply H; simpl; tauto.
Qed.

(** X6. Setting more filters never shows more: when every filter set in [f]
    is set in [g], the items visible under [g] are visible under [f], in the
    same order. *)
Theorem more_filters_show_fewer_items (m : Menu) (category : json)
    (f g : gmap string json) (lf : list MenuItem) :
  (forall k, In k filterKeys ->
     truthy_opt (f !! k) = true -> truthy_opt (g !! k) = true) ->
  visibleItems m category f = Shown lf ->
  exists lg,
    visibleItems m category g = Shown lg
    /\ lg `sublist_of` lf
    /\ (forall item, In item lg -> In item lf).
Proof.
  intros H Ef. destruct (visibleItems_shown _ _ _ _ Ef) as (l0 & E0).
  rewrite (visibleItems_filter _ _ f _ E0) in Ef. injection Ef as <-.
  exists (List.filter (passes g) l0).
  assert (List.filter (passes g) l0
          = List.filter (passes g) (List.filter (passes f) l0)) as E.
  { rewrite filter_and. apply List.filter_ext. intros x.
    destruct (passes g x) eqn:G.
    - now rewrite (passes_more f g x H G).
    - now rewrite andb_false_r. }
  split; [now apply visibleItems_filter|]. rewrite E.
  split; [apply filter_sublist|]. intros item Hin. now apply filter_In in Hin.
Qed.

Lemma more_filters_show_fewer_items_witness :
  exists lg,
    visibleItems Samples.menu (JStr "all")
      (<["noCheese" := JBool true]> (<["popular" := JBool true]> noFilters))
    = Shown lg
    /\ lg `sublist_of` [Samples.margherita].
Proof.
  destruct (more_filters_show_fewer_items Samples.menu (JStr "all")
              (<["popular" := JBool true]> noFilters)
              (<["noCheese" := JBool true]> (<["popular" := JBool true]> noFilters))
              [Samples.margherita]) as (lg & E & S & _).
  - intros k Hk. simpl in Hk.
    repeat (destruct Hk as [<-|Hk]; [vm_compute; congruence|]). destruct Hk.
  - reflexivity.
  - exists lg. split; assumption.
Defined.

Lemma menu_own_In (m : Menu) k items :
  List.NoDup (map fst m) -> In (k, items) m -> menu_own m k = Some items.
Proof.
  induction m as [|[k' items'] m IH]; simpl; [tauto|].
  intros Hnd [E|Hin].
  - injection E as -> ->. now rewrite String.eqb_refl.
  - apply NoDup_cons_iff in Hnd.
    destruct Hnd as [Hk Hnd].
    destruct (String.eqb_spec k' k) as [->|_].
    + exfalso. apply Hk. apply in_map_iff. now exists (k, items).
    + now apply IH.
Qed.

(** X7. The tab "Tout" is the tabs of the categories one after the other:
    when the keys of the menu are distinct and none is "all", the items
    visible under "all" are those visible under each category in turn,
    concatenated in the order of the menu, whatever the filters. *)
Theorem all_is_the_categories_in_turn (m : Menu) (filters : gmap string json) :
  List.NoDup (map fst m) ->
  ~ In "all" (map fst m) ->
  visibleItems m (JStr "all") filters
  = Shown (concat (map (fun key =>
                          match visibleItems m (JStr key) filters with
                          | Shown l => l
                          | NotAList | TypeError => []
                          end) (map fst m))).
Proof.
  intros Hnd Hall.
  rewrite (visibleItems_filter m (JStr "all") filters (all_items m))
    by (now rewrite visibleItems_unfiltered).
  unfold all_items. rewrite filter_concat, !map_map. do 2 f_equal.
  apply map_ext_in. intros [k items] Hin. simpl.
  assert (visibleItems m (JStr k) ∅ = Shown items) as E.
  { rewrite visibleItems_unfiltered. simpl.
    destruct (String.eqb_spec k "all") as [->|_].
    - exfalso. apply Hall. apply in_map_iff. now exists ("all", items).
    - unfold menu_get. now rewrite (menu_own_In m k items Hnd Hin). }
  now rewrite (visibleItems_filter _ _ filters _ E).
Qed.

Lemma all_is_the_categories_in_turn_witness :
  visibleItems Samples.menu (JStr "all") (<["noCheese" := JBool true]> noFilters)
  = Shown ([Samples.margherita] ++ [Samples.arrabbiata]).
Proof.
  rewrite (all_is_the_categories_in_turn Samples.menu
             (<["noCheese" := JBool true]> noFilters)).
  - reflexivity.
  - simpl. repeat constructor; simpl; intuition discriminate.
  - simpl. intuition discriminate.
Defined.

Lemma toggleFilter_filters k s :
  activeFilters (toggleFilter k s) = toggled k (activeFilters s).
Proof. reflexivity. Qed.

(** X8. [toggleFilter] flips the one flag it names, as a boolean, and leaves
    every other flag and the category as they are; toggling a boolean flag
    twice gives back the filters as they were. *)
Theorem toggle_flips_one_flag (k : string) (s : Session) :
  activeFilters (toggleFilter k s) !! k
  = Some (JBool (negb (truthy_opt (activeFilters s !! k))))
  /\ (forall k', k' <> k ->
        activeFilters (toggleFilter k s) !! k' = activeFilters s !! k')
  /\ currentCategory (toggleFilter k s) = currentCategory s
  /\ (forall b, activeFilters s !! k = Some (JBool b) ->
        activeFilters (toggleFilter k (toggleFilter k s)) = activeFilters s).
Proof.
  rewrite !toggleFilter_filters. unfold toggled.
  split; [apply lookup_insert_eq|].
  split; [intros k' Hk; now apply lookup_insert_ne|].
  split; [reflexivity|].
  intros b Hb. rewrite lookup_insert_eq, insert_insert_eq, Hb. simpl.
  rewrite negb_involutive. now apply insert_id.
Qed.

Lemma count_zero (f : gmap string json) :
  getActiveFiltersCount f = 0%nat <->
  (forall k, truthy_opt (f !! k) = false).
Proof.
  unfold getActiveFiltersCount. rewrite map_size_empty_iff, map_empty.
  split.
  - intros H k. specialize (H k). apply map_lookup_filter_None in H.
    destruct (f !! k) as [v|] eqn:E; [|reflexivity]. simpl.
    destruct H as [H|H]; [discriminate|]. specialize (H v eq_refl). simpl in H.
    destruct (truthy v); [exfalso; now apply H|reflexivity].
  - intros H k. apply map_lookup_filter_None. right. intros v E. simpl.
    specialize (H k). rewrite E in H. simpl in H. now rewrite H.
Qed.

(** X9. The number that [getActiveFiltersCount] shows is zero exactly when
    no property of the filters is truthy, and then the effect filters
    nothing: the visible items are those of the category. *)
Theorem no_active_filter_shows_the_category (f : gmap string json) :
  (getActiveFiltersCount f = 0%nat <-> forall k, truthy_opt (f !! k) = false)
  /\ (getActiveFiltersCount f = 0%nat ->
      forall m category, visibleItems m category f = visibleItems m category ∅)
  /\ getActiveFiltersCount noFilters = 0%nat.
Proof.
  split; [apply count_zero|]. split.
  - intros H m category. pose proof (proj1 (count_zero f) H) as Hoff.
    unfold visibleItems. rewrite !apply_off by (apply Hoff || reflexivity).
    reflexivity.
  - apply count_zero. intros k.
    destruct (noFilters !! k) as [v|] eqn:E; [|reflexivity].
    unfold noFilters in E. apply elem_of_list_to_map_2 in E.
    apply list_elem_of_In in E. simpl in E.
    repeat (destruct E as [E|E]; [injection E as <- <-; reflexivity|]).
    destruct E.
Qed.

(** X10. A toggle changes the number of active filters by exactly one: one
    less when the flag was truthy, one more when it was not. *)
Theorem toggle_changes_count_by_one (k : string) (f : gmap string json) :
  getActiveFiltersCount (toggled k f)
  = if truthy_opt (f !! k) then pred (getActiveFiltersCount f)
    else S (getActiveFiltersCount f).
Proof.
  unfold getActiveFiltersCount, toggled.
  set (P := fun kv : string * json => Is_true (truthy kv.2)).
  destruct (f !! k) as [v|] eqn:E; simpl.
  - destruct (truthy v) eqn:T; simpl.
    + rewrite map_filter_insert_False by (simpl; tauto).
      rewrite map_filter_delete, map_size_delete.
      rewrite (map_lookup_filter_Some_2 P f k v); [reflexivity|exact E|].
      unfold P. simpl. now rewrite T.
    + rewrite map_filter_insert_True by (simpl; exact I).
      rewrite map_size_insert.
      assert (filter P f !! k = None) as ->; [|reflexivity].
      apply map_lookup_filter_None. right. intros x Hx.
      rewrite E in Hx. injection Hx as <-. unfold P. simpl. now rewrite T.
  - rewrite map_filter_insert_True by (simpl; exact I).
    rewrite map_size_insert.
    assert (filter P f !! k = None) as ->; [|reflexivity].
    apply map_lookup_filter_None. now left.
Qed.

(** X11. The button "Voir tout le menu" brings back the whole menu, whatever
    the category and the filters were: every item of every category is
    visible and no filter is counted as active.  The button "Effacer" resets
    the filters and keeps the category. *)
Theorem reset_buttons_restore_the_menu (m : Menu) (s : Session) :
  visibleItems m (currentCategory (showWholeMenu s))
    (activeFilters (showWholeMenu s)) = Shown (concat (map snd m))
  /\ getActiveFiltersCount (activeFilters (showWholeMenu s)) = 0%nat
  /\ currentCategory (clearFilters s) = currentCategory s
  /\ getActiveFiltersCount (activeFilters (clearFilters s)) = 0%nat
  /\ visibleItems m (currentCategory (clearFilters s))
       (activeFilters (clearFilters s))
     = visibleItems m (currentCategory s) ∅.
Proof.
  assert (getActiveFiltersCount noFilters = 0%nat) as Z by (vm_compute; reflexivity).
  pose proof (proj1 (count_zero noFilters) Z) as Hoff.
  assert (forall category,
            visibleItems m category noFilters = visibleItems m category ∅) as U.
  { intros category. unfold visibleItems.
    rewrite !apply_off by (apply Hoff || reflexivity). reflexivity. }
  simpl. rewrite !U. repeat split; try exact Z.
Qed.

(** X12. A toggle made by the user during the delay before the merge is
    kept: after the timeout the toggled flag has the value of the actions
    when they name it, and is set otherwise; the flags that the actions name
    have their values. *)
Theorem toggle_during_the_delay (actions : json) (s : Session) (f : json)
    (k : string) :
  prop actions "setFilters" = Some f ->
  truthy f = true ->
  let after :=
    activeFilters
      (fire (snd (executeAIActions actions s))
         (toggleFilter k (fst (executeAIActions actions s)))) in
  (forall v, own_entries f !! k = Some v -> after !! k = Some v)
  /\ (own_entries f !! k = None -> after !! k = Some (JBool true))
  /\ (forall k' v, own_entries f !! k' = Some v -> after !! k' = Some v)
  /\ (forall k', k' <> k -> own_entries f !! k' = None ->
        after !! k' = noFilters !! k').
Proof.
  intros Hf Tf after.
  assert (after = spread (toggled k noFilters) f) as E.
  { unfold after. pose proof (executeAIActions_filters actions s) as F.
    rewrite Hf in F. simpl in F. rewrite Tf, orb_true_r in F.
    unfold executeAIActions at 1. simpl snd. rewrite Hf, Tf.
    unfold fire. simpl. rewrite F. reflexivity. }
  rewrite E. unfold spread, toggled.
  assert (truthy_opt (noFilters !! k) = false) as Hoff.
  { apply (proj1 (count_zero noFilters)). vm_compute. reflexivity. }
  split; [|split; [|split]].
  - intros v Hv. now apply lookup_union_Some_l.
  - intros Hk. rewrite lookup_union_r by assumption.
    now rewrite lookup_insert_eq, Hoff.
  - intros k' v Hv. now apply lookup_union_Some_l.
  - intros k' Hne Hk'. rewrite lookup_union_r by assumption.
    now apply lookup_insert_ne.
Qed.

Lemma toggle_during_the_delay_witness :
  activeFilters
    (fire (snd (executeAIActions Samples.popular_only Home.initial))
       (toggleFilter "vegan"
          (fst (executeAIActions Samples.popular_only Home.initial))))
  !! "vegan" = Some (JBool true).
Proof.
  refine (proj1 (proj2 (toggle_during_the_delay Samples.popular_only
            Home.initial (JObj {[ "popular" := JBool true ]}) "vegan" _ _)) _);
    reflexivity.
Defined.

(** X13. The category and the filters after a turn depend on the properties
    [filterCategory], [setFilters] and [customFilters] of the actions alone:
    [recommendedItems], [showItems] and any other property change neither. *)
Theorem only_three_fields_matter (a b : json) (s : Session) :
  prop a "filterCategory" = prop b "filterCategory" ->
  prop a "setFilters" = prop b "setFilters" ->
  prop a "customFilters" = prop b "customFilters" ->
  currentCategory (reconcile a s) = currentCategory (reconcile b s)
  /\ activeFilters (reconcile a s) = activeFilters (reconcile b s).
Proof.
  intros H1 H2 H3.
  rewrite !reconcile_category, !reconcile_filters.
  unfold asserts_withCheese. rewrite H1, H2, H3. split; reflexivity.
Qed.

Lemma only_three_fields_matter_witness :
  currentCategory (reconcile Samples.recommending Samples.vegan_session)
  = currentCategory (reconcile (JObj ∅) Samples.vegan_session)
  /\ activeFilters (reconcile Samples.recommending Samples.vegan_session)
     = activeFilters (reconcile (JObj ∅) Samples.vegan_session).
Proof.
  apply (only_three_fields_matter Samples.recommending (JObj ∅));
    reflexivity.
Defined.

(** X14. A title of the page that is computed is never empty:
    "Chargement..." before the menu is there, "Notre Menu" for "all", the
    name of the category when the menu has it under the key with a name that
    is not empty, and "Menu" for a key that the menu does not have and that
    objects do not inherit.  No title is computed, a TypeError being thrown
    instead, exactly when the menu is there and the category cannot be
    turned into a property name, as an object with a property [toString] of
    its own cannot. *)
Theorem category_title_is_never_empty (menuData : option MenuData)
    (category : json) :
  (forall title,
     getCategoryTitle menuData category = Some title -> title <> "")
  /\ (getCategoryTitle menuData category = None
      <-> menuData <> None /\ ToString category = None)
  /\ (forall o x, o !! "toString" = Some x -> ToString (JObj o) = None)
  /\ getCategoryTitle None category = Some "Chargement..."
  /\ (forall d, getCategoryTitle (Some d) (JStr "all") = Some "Notre Menu")
  /\ (forall d key c,
        key <> "all" -> category_own (categories d) key = Some c ->
        cat_name c <> "" ->
        getCategoryTitle (Some d) (JStr key) = Some (cat_name c))
  /\ (forall d key,
        key <> "all" -> category_own (categories d) key = None ->
        ~ In key Object_prototype ->
        getCategoryTitle (Some d) (JStr key) = Some "Menu").
Proof.
  split; [|split; [|split; [|split; [reflexivity|split; [reflexivity|split]]]]].
  - unfold getCategoryTitle. destruct menuData as [d|];
      [|intros title [= <-]; discriminate].
    destruct (is_string "all" category); [intros title [= <-]; discriminate|].
    destruct (ToString category) as [key|] eqn:T; [|discriminate].
    destruct (category_own _ _) as [c|].
    + destruct (cat_name c); intros title [= <-]; discriminate.
    + unfold inherited_name.
      destruct (String.eqb _ "constructor"); [intros title [= <-]; discriminate|].
      destruct (String.eqb _ "__proto__"); [intros title [= <-]; discriminate|].
      destruct (existsb _ _) eqn:E; [|intros title [= <-]; discriminate].
      destruct key; [vm_compute in E; discriminate E|].
      intros title [= <-]. discriminate.
  - unfold getCategoryTitle. destruct menuData as [d|];
      [|split; [discriminate|intros [H _]; contradiction]].
    destruct (is_string "all" category) eqn:A.
    + destruct category; try discriminate A. simpl.
      split; [discriminate|intros [_ H]; discriminate H].
    + destruct (ToString category) as [key|].
      * split; [|intros [_ H]; discriminate H]. cbv zeta.
        destruct (category_own (categories d) key) as [c|];
          [destruct (cat_name c)|destruct (inherited_name key) as [[|]|]];
          discriminate.
      * split; [intros _; split; [discriminate|reflexivity]|reflexivity].
  - intros o x H. simpl. now rewrite H.
  - intros d key c Hall Hown Hname. unfold getCategoryTitle. simpl.
    destruct (String.eqb_spec key "all"); [contradiction|].
    rewrite Hown. destruct (cat_name c); [contradiction|reflexivity].
  - intros d key Hall Hown Hproto. unfold getCategoryTitle. simpl.
    destruct (String.eqb_spec key "all"); [contradiction|].
    rewrite Hown. unfold inherited_name.
    destruct (String.eqb_spec key "constructor") as [->|_];
      [exfalso; apply Hproto; simpl; tauto|].
    destruct (String.eqb_spec key "__proto__") as [->|_]; [reflexivity|].
    destruct (existsb _ _) eqn:E; [|reflexivity].
    exfalso. apply Hproto. apply existsb_exists in E as (x & Hx & Ex).
    apply String.eqb_eq in Ex. now subst x.
Qed.

(** X15. [getBrowserLanguage] always returns one of the five languages of
    the page, French for any other language of the browser, and
    [getWelcomeMessage] is always the message of that language: the
    alternative [|| messages.fr] is never taken. *)
Theorem welcome_is_in_a_supported_language (language : string) :
  In (getBrowserLanguage language) ["fr"; "en"; "es"; "de"; "it"]
  /\ messages_own messages (getBrowserLanguage language)
     = Some (getWelcomeMessage language)
  /\ getWelcomeMessage language <> ""
  /\ (~ In (split_head "-" language) ["fr"; "en"; "es"; "de"; "it"] ->
      getBrowserLanguage language = "fr"
      /\ getWelcomeMessage language = welcome_fr)
  /\ (In (split_head "-" language) ["fr"; "en"; "es"; "de"; "it"] ->
      getBrowserLanguage language = split_head "-" language).
Proof.
  assert (forall l, In l ["fr"; "en"; "es"; "de"; "it"] ->
            existsb (String.eqb l) ["fr"; "en"; "es"; "de"; "it"] = true) as Hin.
  { intros l H. apply existsb_exists. exists l. split; [exact H|].
    apply String.eqb_refl. }
  assert (forall l, existsb (String.eqb l) ["fr"; "en"; "es"; "de"; "it"] = true ->
            In l ["fr"; "en"; "es"; "de"; "it"]) as Hout.
  { intros l H. apply existsb_exists in H as (x & Hx & Ex).
    apply String.eqb_eq in Ex. now subst x. }
  assert (In (getBrowserLanguage language) ["fr"; "en"; "es"; "de"; "it"]) as S.
  { unfold getBrowserLanguage.
    destruct (existsb _ _) eqn:E; [now apply Hout|simpl; tauto]. }
  assert (messages_own messages (getBrowserLanguage language)
          = Some (getWelcomeMessage language)
          /\ getWelcomeMessage language <> "") as [M N].
  { unfold getWelcomeMessage. simpl in S.
    destruct S as [<-|[<-|[<-|[<-|[<-|[]]]]]]; split;
      (reflexivity || discriminate). }
  split; [exact S|]. split; [exact M|]. split; [exact N|]. split.
  - intros H. assert (getBrowserLanguage language = "fr") as F.
    { unfold getBrowserLanguage. destruct (existsb _ _) eqn:E; [|reflexivity].
      exfalso. now apply H, Hout. }
    split; [exact F|]. unfold getWelcomeMessage. now rewrite F.
  - intros H. unfold getBrowserLanguage. now rewrite (Hin _ H).
Qed.

End PageFacts.

(** ** Turns of the conversation *)

Module TurnFacts.
Import Js Http Home Recorder Page Text.

(** X16. An error reply of the chat route is to the page what an unreachable
    server is: the category, the filters and the history stay as they were,
    the message shown is the apology, whatever the error said. *)
Theorem error_reply_keeps_the_menu (JSON_parse : string -> option json)
    (env : Env) (req : Chat.ChatRequest) (up : Chat.ChatGPT)
    (e : ErrorResponse) (userMessage : string) (p : Page) :
  body (Chat.handler JSON_parse env req up) = Failure e ->
  let p' :=
    processUserInputWithAI userMessage
      (Replied (Chat.handler JSON_parse env req up)) p in
  p' = processUserInputWithAI userMessage Unreachable p
  /\ session p' = session p
  /\ conversationHistory p' = conversationHistory p
  /\ assistantMessage p' = Some (JStr fallbackMessage)
  /\ isThinking p' = false.
Proof.
  intros He p'. unfold p', processUserInputWithAI.
  rewrite (ChatMore.handler_failure_status _ _ _ _ _ He). simpl.
  repeat split.
Qed.

Lemma error_reply_keeps_the_menu_witness :
  let p' :=
    processUserInputWithAI "je voudrais une pizza"
      (Replied (Chat.handler JSON.parse Samples.env Samples.get_request
                  (Chat.ChatRejected "boom"))) start in
  p' = processUserInputWithAI "je voudrais une pizza" Unreachable start
  /\ session p' = session start
  /\ conversationHistory p' = conversationHistory start
  /\ assistantMessage p' = Some (JStr fallbackMessage)
  /\ isThinking p' = false.
Proof.
  apply (error_reply_keeps_the_menu JSON.parse Samples.env Samples.get_request
           (Chat.ChatRejected "boom")
           {| Http.error := "Méthode non autorisée"; details := None |}).
  reflexivity.
Defined.

(** X17. An answer of the assistant that does not decode, sent back for a
    message of the page: the page shows the text as it came, adds the
    message and the text to the history, and leaves the category and the
    filters alone. *)
Theorem plain_answer_is_shown_as_it_came (JSON_parse : string -> option json)
    (env : Env) (key userMessage raw : string) (code : Z) (p : Page) :
  userMessage <> "" ->
  OPENAI_API_KEY env = Some key -> key <> "" ->
  ok code = true -> raw <> "" ->
  JSON_parse (Chat.cleanResponse raw) = None ->
  processUserInputWithAI userMessage
    (Replied (Chat.handler JSON_parse env (chatRequest userMessage)
                (Chat.ChatAnswered code (inr (Some raw))))) p
  = {| session := session p;
       assistantMessage := Some (JStr raw);
       conversationHistory :=
         conversationHistory p
         ++ [(user, Some (JStr userMessage)); (assistant, Some (JStr raw))];
       isThinking := false;
       showTranscript := showTranscript p |}.
Proof.
  intros Hm Hk Hk' Hok Hr Hp.
  unfold processUserInputWithAI, Chat.handler, chatRequest. simpl.
  destruct userMessage as [|a m]; [contradiction|].
  rewrite Hk. destruct key as [|b k]; [contradiction|].
  rewrite Hok. simpl. destruct raw as [|c r]; [contradiction|].
  unfold Chat.respond. rewrite Hp. reflexivity.
Qed.

Lemma plain_answer_is_shown_as_it_came_witness :
  processUserInputWithAI "Je veux des pizzas"
    (Replied (Chat.handler JSON.parse Samples.env
                (chatRequest "Je veux des pizzas")
                (Chat.ChatAnswered 200 (inr (Some Samples.plain_answer)))))
    start
  = {| session := session start;
       assistantMessage := Some (JStr Samples.plain_answer);
       conversationHistory :=
         [(user, Some (JStr "Je veux des pizzas"));
          (assistant, Some (JStr Samples.plain_answer))];
       isThinking := false;
       showTranscript := false |}.
Proof.
  apply (plain_answer_is_shown_as_it_came JSON.parse Samples.env "sk-test"
           "Je veux des pizzas" Samples.plain_answer 200 start);
    try discriminate; reflexivity || (vm_compute; reflexivity).
Defined.

Lemma alternates_app_n x y (n : nat) :
  forall h, (length h <= n)%nat ->
  alternates (h ++ [(user, x); (assistant, y)]) = alternates h.
Proof.
  induction n as [|n IH]; intros h Hn.
  - destruct h; [reflexivity|simpl in Hn; lia].
  - destruct h as [|[[] a] [|[[] b] r]]; try reflexivity.
    simpl. apply IH. simpl in Hn. lia.
Qed.

Lemma alternates_app h x y :
  alternates (h ++ [(user, x); (assistant, y)]) = alternates h.
Proof. exact (alternates_app_n x y (length h) h (le_n _)). Qed.

Lemma turn_history userMessage server p :
  conversationHistory (processUserInputWithAI userMessage server p)
  = (conversationHistory p
     ++ (if succeeded server
         then [(user, Some (JStr userMessage));
               (assistant,
                match server with
                | Replied r => data_response r
                | Unreachable => None
                end)]
         else []))%list.
Proof.
  unfold processUserInputWithAI, succeeded.
  destruct server as [|r]; simpl; [now rewrite app_nil_r|].
  destruct (ok (status r)); simpl; [reflexivity|now rewrite app_nil_r].
Qed.

(** X18. After any number of turns, one after the other, from the start of
    the page, the history is made of pairs, a message of the user and then
    the answer of the assistant, one pair for each turn that the server
    answered with a success: a failed turn leaves no trace in what the next
    request sends. *)
Theorem history_is_pairs_of_answered_turns
    (l : list (string * Fetched Chat.ChatResponse)) :
  alternates (conversationHistory (turns l start)) = true
  /\ length (conversationHistory (turns l start))
     = (2 * length (List.filter (fun t => succeeded t.2) l))%nat.
Proof.
  assert (forall p,
            alternates (conversationHistory p) = true ->
            alternates (conversationHistory (turns l p)) = true
            /\ length (conversationHistory (turns l p))
               = (length (conversationHistory p)
                  + 2 * length (List.filter (fun t => succeeded t.2) l))%nat)
    as H.
  { induction l as [|[m server] l IH]; intros p Hp.
    - simpl. split; [exact Hp|lia].
    - change (turns ((m, server) :: l) p)
        with (turns l (processUserInputWithAI m server p)).
      destruct (IH (processUserInputWithAI m server p)) as [A L].
      { rewrite turn_history. destruct (succeeded server).
        - now rewrite alternates_app.
        - now rewrite app_nil_r. }
      split; [exact A|]. rewrite L, turn_history. simpl.
      destruct (succeeded server); rewrite length_app; simpl; lia. }
  exact (H start eq_refl).
Qed.

(** X19. A message that is not empty, as the page sends them (a transcript
    that is set, or the text of a button), passes the first two guards of
    the chat route: the page is never told that the method is not allowed
    or that the message is required. *)
Theorem page_requests_pass_the_guards (JSON_parse : string -> option json)
    (env : Env) (userMessage : string) (up : Chat.ChatGPT)
    (e : ErrorResponse) :
  userMessage <> "" ->
  body (Chat.handler JSON_parse env (chatRequest userMessage) up) = Failure e ->
  Http.error e <> "Méthode non autorisée" /\ Http.error e <> "Message requis".
Proof.
  intros Hm. unfold Chat.handler, chatRequest. simpl.
  destruct userMessage as [|a m]; [contradiction|].
  destruct (OPENAI_API_KEY env) as [[|b k]|];
    try (intros [= <-]; split; discriminate).
  destruct up as [msg|code content];
    [intros [= <-]; split; discriminate|].
  destruct (ok code); simpl; [|intros [= <-]; split; discriminate].
  destruct content as [msg|[[|c r]|]];
    try (intros [= <-]; split; discriminate).
  unfold Chat.respond.
  destruct (JSON_parse _) as [[]|]; simpl; try discriminate.
  intros [= <-]; split; discriminate.
Qed.

Lemma page_requests_pass_the_guards_witness :
  Http.error {| Http.error := "Erreur interne du serveur";
           details := Some "Erreur inattendue" |} <> "Méthode non autorisée"
  /\ Http.error {| Http.error := "Erreur interne du serveur";
              details := Some "Erreur inattendue" |} <> "Message requis".
Proof.
  apply (page_requests_pass_the_guards JSON.parse Samples.env
           "Je suis végétarien" (Chat.ChatRejected "boom"));
    [discriminate|reflexivity].
Defined.

End TurnFacts.

(** ** The voice recorder *)

Module VoiceFacts.
Import Js JsFacts Http Transcribe TranscribeFacts Recorder Page Text.

Lemma strip_ws_length back s :
  (String.length (strip_ws back s) <= String.length s)%nat.
Proof.
  destruct (strip_split back (String.length s) s (le_n _)) as (w & _ & E).
  rewrite E at 2. rewrite length_append. lia.
Qed.

(** Stripping twice is stripping once. *)
Lemma strip_ws_idem back (n : nat) :
  forall s, (String.length s <= n)%nat ->
  strip_ws back (strip_ws back s) = strip_ws back s.
Proof.
  induction n as [|n IH]; intros s Hn.
  - destruct s; [reflexivity|simpl in Hn; lia].
  - destruct s as [|a r]; [reflexivity|]. simpl in Hn.
    destruct (is_ws1 a) eqn:E1.
    { simpl. rewrite E1. apply IH. lia. }
    destruct r as [|b r2]; [simpl; rewrite E1; simpl; now rewrite E1|].
    simpl in Hn.
    destruct (if back then is_ws2 b a else is_ws2 a b) eqn:E2.
    { simpl. rewrite E1, E2. apply IH. lia. }
    destruct r2 as [|c r3];
      [simpl; rewrite E1, E2; simpl; now rewrite E1, E2|].
    simpl in Hn.
    destruct (if back then is_ws3 c b a else is_ws3 a b c) eqn:E3.
    { simpl. rewrite E1, E2, E3. apply IH. lia. }
    simpl. rewrite E1, E2, E3. simpl. now rewrite E1, E2, E3.
Qed.

Lemma strip_ws_1 back a r :
  is_ws1 a = true -> strip_ws back (String a r) = strip_ws back r.
Proof. intros E. simpl. now rewrite E. Qed.

Lemma strip_ws_2 a b r :
  is_ws1 a = false -> is_ws2 a b = true ->
  strip_ws false (String a (String b r)) = strip_ws false r.
Proof. intros E1 E2. simpl. now rewrite E1, E2. Qed.

Lemma strip_ws_3 a b c r :
  is_ws1 a = false -> is_ws2 a b = false -> is_ws3 a b c = true ->
  strip_ws false (String a (String b (String c r))) = strip_ws false r.
Proof. intros E1 E2 E3. simpl. now rewrite E1, E2, E3. Qed.

Ltac too_long H :=
  exfalso; apply (f_equal String.length) in H;
  match type of H with
  | String.length (strip_ws ?b ?s) = _ =>
      generalize (strip_ws_length b s); rewrite H; simpl;
      rewrite ?length_append; simpl; lia
  end.

(** What starts a text from which nothing is stripped is a text from which
    nothing is stripped. *)
Lemma stopped_prefix x y :
  strip_ws false (x +:+ y) = x +:+ y -> strip_ws false x = x.
Proof.
  destruct x as [|a [|b [|c x3]]]; [reflexivity| | |];
    rewrite ?append_cons; intros H.
  - destruct (is_ws1 a) eqn:E1; [|simpl; now rewrite E1].
    rewrite strip_ws_1 in H by exact E1. too_long H.
  - destruct (is_ws1 a) eqn:E1;
      [rewrite strip_ws_1 in H by exact E1; too_long H|].
    destruct (is_ws2 a b) eqn:E2; [|simpl; now rewrite E1, E2].
    rewrite strip_ws_2 in H by assumption. too_long H.
  - destruct (is_ws1 a) eqn:E1;
      [rewrite strip_ws_1 in H by exact E1; too_long H|].
    destruct (is_ws2 a b) eqn:E2;
      [rewrite strip_ws_2 in H by assumption; too_long H|].
    destruct (is_ws3 a b c) eqn:E3; [|simpl; now rewrite E1, E2, E3].
    rewrite strip_ws_3 in H by assumption. too_long H.
Qed.

(** [trim] leaves a text that it does not change. *)
Lemma trim_idem (s : string) : trim (trim s) = trim s.
Proof.
  unfold trim, trimEnd, trimStart.
  set (t := strip_ws false s).
  set (u := strip_ws true (String.rev t)).
  assert (strip_ws false t = t) as Ht
    by apply (strip_ws_idem false (String.length s) s (le_n _)).
  assert (strip_ws true u = u) as Hu
    by apply (strip_ws_idem true _ (String.rev t) (le_n _)).
  destruct (strip_split true _ (String.rev t) (le_n _)) as (w & _ & E).
  fold u in E.
  assert (t = String.rev u +:+ String.rev w) as Et.
  { rewrite <- (rev_rev t), E, rev_append. reflexivity. }
  rewrite Et in Ht. apply stopped_prefix in Ht.
  rewrite Ht, rev_rev, Hu. reflexivity.
Qed.

Lemma caught_status env msg :
  exists e, body (caught env msg) = Failure e
            /\ ok (status (caught env msg)) = false.
Proof.
  unfold caught. cbv zeta.
  destruct (match msg with Some m => includes "ENOENT" m | None => false end);
    [eexists; split; reflexivity|].
  destruct (match msg with Some m => includes "fetch" m | None => false end);
    eexists; split; reflexivity.
Qed.

(** The replies of the transcription route, case by case. *)
Lemma transcribe_cases env req up :
  let r := Transcribe.handler env req up in
  (exists e, body r = Failure e /\ ok (status r) = false)
  \/ (exists code errorText t x,
        up = WhisperAnswered code errorText (inr t) /\ ok code = true
        /\ w_text t = Some x /\ ~ blank x
        /\ status r = 200
        /\ exists d, body r = Data d /\ text d = trim x).
Proof.
  unfold Transcribe.handler.
  destruct (negb (String.eqb (Transcribe.method req) "POST"));
    [left; eexists; split; reflexivity|].
  destruct (OPENAI_API_KEY env) as [[|b key]|];
    try (left; eexists; split; reflexivity).
  destruct (audio req) as [msg|[file|]];
    [left; apply caught_status| |left; eexists; split; reflexivity].
  destruct up as [msg|code errorText tr]; [left; apply caught_status|].
  destruct (ok code) eqn:Hok; simpl;
    [|left; eexists; split; [reflexivity|exact Hok]].
  destruct tr as [msg|t]; [left; apply caught_status|].
  unfold transcribed.
  destruct (w_text t) as [[|a x]|] eqn:Ht;
    try (left; eexists; split; reflexivity).
  destruct (String.eqb_spec (trim (String a x)) "") as [E|Hne];
    [left; eexists; split; reflexivity|].
  right. exists code, errorText, t, (String a x).
  repeat split; auto.
  - intros B. apply Hne. now apply trim_empty.
  - eexists. split; reflexivity.
Qed.

(** X20. The transcription route answers with a text only to a request on
    which the service answered with a success and a text that is not blank,
    and then with the status 200; the text it returns is not empty and has
    no whitespace left at either end.  Every other reply is an error with a
    status that [fetch] does not count as a success. *)
Theorem transcript_is_trimmed_speech (env : Env) (req : TranscribeRequest)
    (up : Whisper) :
  let r := Transcribe.handler env req up in
  (forall e, body r = Failure e -> ok (status r) = false)
  /\ (forall d, body r = Data d ->
        status r = 200
        /\ text d <> "" /\ trim (text d) = text d /\ ~ blank (text d)
        /\ exists code errorText t x,
             up = WhisperAnswered code errorText (inr t) /\ ok code = true
             /\ w_text t = Some x /\ text d = trim x).
Proof.
  intros r.
  destruct (transcribe_cases env req up)
    as [(e & He & Hs)|(code & errorText & t & x & Hup & Hok & Ht & Hb & Hs
                       & d & Hd & Hx)]; fold r in He, Hs || fold r in Hs, Hd.
  - split; [intros _ _; exact Hs|intros d Hd; congruence].
  - split; [intros e He; congruence|].
    intros d' Hd'. rewrite Hd in Hd'. injection Hd' as <-.
    assert (text d <> "") as Hne.
    { rewrite Hx. intros E. apply Hb. now apply trim_empty. }
    repeat split.
    + exact Hs.
    + exact Hne.
    + rewrite Hx. apply trim_idem.
    + intros B. apply Hne. rewrite Hx, <- trim_idem, <- Hx.
      now apply trim_empty.
    + exists code, errorText, t, x. auto.
Qed.

(** X21. Stopping a recording that has just been started: the hook ends
    not recording and not processing, with the level at zero, and its
    transcript is the text of this recording when the reply counts as a
    success, and none otherwise, with the error of the transcription; the
    transcript of an earlier recording is never kept.  When the microphone
    was refused, stopping does nothing. *)
Theorem stop_after_start (mic : Microphone)
    (server : Fetched TranscribeResponse) (h : Hook) :
  let h' := stopRecording server (startRecording mic h) in
  isRecording (state h') = false
  /\ match mic with
     | Granted _ =>
         isProcessing (state h') = false
         /\ audioLevel (state h') = (0, 0)
         /\ match server with
            | Replied r =>
                if ok (status r)
                then transcript (state h') = data_text r
                     /\ Recorder.error (state h') = None
                else transcript (state h') = None
                     /\ Recorder.error (state h') = Some transcription_error
            | Unreachable =>
                transcript (state h') = None
                /\ Recorder.error (state h') = Some transcription_error
            end
     | Refused =>
         h' = startRecording Refused h
         /\ transcript (state h') = None
         /\ Recorder.error (state h') = Some microphone_error
     end.
Proof.
  destruct mic as [level|]; simpl.
  - unfold stopRecording, startRecording. simpl.
    unfold onstop, transcribeAudio. simpl.
    destruct server as [|r]; simpl; [repeat split|].
    destruct (ok (status r)); simpl; repeat split.
  - unfold stopRecording, startRecording. simpl.
    rewrite andb_false_r. repeat split.
Qed.

(** X22. From the microphone to the assistant.  A recording is started and
    stopped and the transcription route replies.  If it replies with an
    error (no speech heard, for one), the hook shows the error of the
    transcription, holds no transcript, and the page starts no turn.  If it
    replies with a text, that text is the transcript, no error is shown,
    and the page shows the transcript and sends it to the assistant. *)
Theorem heard_text_goes_to_the_assistant (env : Env) (req : TranscribeRequest)
    (up : Whisper) (level : Z * Z) (h : Hook)
    (chat : string -> Fetched Chat.ChatResponse) (p : Page) :
  let r := Transcribe.handler env req up in
  let h' := stopRecording (Replied r) (startRecording (Granted level) h) in
  match body r with
  | Failure _ =>
      transcript (state h') = None
      /\ Recorder.error (state h') = Some transcription_error
      /\ onTranscript (transcript (state h')) chat p = p
  | Data d =>
      transcript (state h') = Some (text d)
      /\ Recorder.error (state h') = None
      /\ onTranscript (transcript (state h')) chat p
         = processUserInputWithAI (text d) (chat (text d))
             {| session := session p;
                assistantMessage := assistantMessage p;
                conversationHistory := conversationHistory p;
                isThinking := isThinking p;
                showTranscript := true |}
  end.
Proof.
  intros r h'.
  assert (h' = transcribeAudio (Replied r)
                 (setState
                    (fun prev =>
                       {| isRecording := false; isProcessing := true;
                          audioLevel := (0, 0);
                          Recorder.error := Recorder.error prev;
                          transcript := transcript prev |})
                    (startRecording (Granted level) h))) as ->
    by reflexivity.
  destruct (transcribe_cases env req up)
    as [(e & He & Hs)|(code & errorText & t & x & Hup & Hok & Ht & Hb & Hs
                       & d & Hd & Hx)]; fold r in He, Hs || fold r in Hs, Hd.
  - rewrite He. unfold transcribeAudio. rewrite Hs. simpl. repeat split.
  - rewrite Hd. unfold transcribeAudio, data_text. rewrite Hs, Hd. simpl.
    repeat split. destruct (text d) as [|a s] eqn:E; [|reflexivity].
    exfalso. apply Hb. apply trim_empty. now rewrite <- Hx.
Qed.

(** X23. A click on the microphone, the microphone being granted, starts a
    recording when none runs and stops the one that runs; the recorder is
    set whenever a recording runs, at the start and after every click and
    every use of the controls of the hook. *)
Theorem click_toggles_recording (language : string) (level : Z * Z)
    (server : Fetched TranscribeResponse) (p : Page) (h : Hook) :
  wired h ->
  let h' := (handleVoiceClick language (Granted level) server p h).2 in
  isRecording (state h') = negb (isRecording (state h))
  /\ wired h'
  /\ wired initial
  /\ (forall mic, wired (startRecording mic h))
  /\ wired (stopRecording server h)
  /\ wired (clearTranscript h).
Proof.
  unfold wired. intros W. unfold handleVoiceClick.
  destruct (isRecording (state h)) eqn:R; simpl.
  - rewrite (W eq_refl). unfold stopRecording. rewrite (W eq_refl), R. simpl.
    unfold onstop, transcribeAudio.
    repeat split; try discriminate;
      try (destruct server as [|r]; simpl;
           [|destruct (ok (status r)); simpl]; (reflexivity || discriminate)).
    intros mic. destruct mic; simpl; [reflexivity|discriminate].
  - unfold stopRecording. rewrite R, andb_false_r. simpl.
    repeat split; try discriminate; try reflexivity;
      try (rewrite R; discriminate).
    intros mic. destruct mic; simpl; [reflexivity|discriminate].
Qed.

Lemma click_toggles_recording_witness :
  let h' :=
    (handleVoiceClick "fr" (Granted (5, -1)) Unreachable start initial).2 in
  isRecording (state h') = negb (isRecording (state initial))
  /\ wired h'
  /\ wired initial
  /\ (forall mic, wired (startRecording mic initial))
  /\ wired (stopRecording Unreachable initial)
  /\ wired (clearTranscript initial).
Proof.
  apply (click_toggles_recording "fr" (5, -1) Unreachable start initial).
  unfold wired. discriminate.
Defined.

(** X24. Outside development, the message of an exception stays on the
    server.  The reply of the chat route to a call that failed, or whose
    body could not be read, is the same whatever the message of the error;
    the reply of the transcription route depends on the message only
    through its kind: whether it holds ENOENT and whether it holds fetch. *)
Theorem exception_messages_stay_on_the_server (env : Env) :
  NODE_ENV env <> Some "development" ->
  (forall JSON_parse req m m',
     Chat.handler JSON_parse env req (Chat.ChatRejected m)
     = Chat.handler JSON_parse env req (Chat.ChatRejected m'))
  /\ (forall JSON_parse req code m m',
        Chat.handler JSON_parse env req (Chat.ChatAnswered code (inl m))
        = Chat.handler JSON_parse env req (Chat.ChatAnswered code (inl m')))
  /\ (forall req m m',
        includes "ENOENT" m = includes "ENOENT" m' ->
        includes "fetch" m = includes "fetch" m' ->
        Transcribe.handler env req (WhisperRejected (Some m))
        = Transcribe.handler env req (WhisperRejected (Some m'))
        /\ forall code errorText,
             Transcribe.handler env req
               (WhisperAnswered code errorText (inl (Some m)))
             = Transcribe.handler env req
                 (WhisperAnswered code errorText (inl (Some m')))).
Proof.
  intros Hdev.
  assert (forall m m', Chat.internalError env m = Chat.internalError env m')
    as Hc.
  { intros m m'. unfold Chat.internalError.
    now destruct (bool_decide_reflect (NODE_ENV env = Some "development")). }
  assert (forall m m',
            includes "ENOENT" m = includes "ENOENT" m' ->
            includes "fetch" m = includes "fetch" m' ->
            caught env (Some m) = caught env (Some m')) as Ht.
  { intros m m' E F. unfold caught. cbv zeta. rewrite E, F.
    now destruct (bool_decide_reflect (NODE_ENV env = Some "development")). }
  split; [|split].
  - intros JSON_parse req m m'. unfold Chat.handler.
    destruct (negb _); [reflexivity|].
    destruct (Chat.message req) as [[|]|]; try reflexivity;
      destruct (OPENAI_API_KEY env) as [[|]|]; try reflexivity; apply Hc.
  - intros JSON_parse req code m m'. unfold Chat.handler.
    destruct (negb _); [reflexivity|].
    destruct (Chat.message req) as [[|]|]; try reflexivity;
      destruct (OPENAI_API_KEY env) as [[|]|]; try reflexivity;
      destruct (negb (ok code)); try reflexivity; apply Hc.
  - intros req m m' E F. split; [|intros code errorText];
      unfold Transcribe.handler;
      (destruct (negb (String.eqb _ _)); [reflexivity|]);
      destruct (OPENAI_API_KEY env) as [[|]|]; try reflexivity;
      destruct (audio req) as [x|[f|]]; try reflexivity;
      try (destruct (negb (ok code)); [reflexivity|]); now apply Ht.
Qed.

Lemma exception_messages_stay_on_the_server_witness :
  Chat.handler JSON.parse Samples.env Samples.request
    (Chat.ChatRejected "connect ETIMEDOUT 10.0.0.1:443")
  = Chat.handler JSON.parse Samples.env Samples.request
      (Chat.ChatRejected "boom").
Proof.
  apply (exception_messages_stay_on_the_server Samples.env). discriminate.
Defined.

End VoiceFacts.
